(** * WiFi setup page (html/js/setup_wifi.js): scan poller

    A shallow embedding of the script: the known access points object
    [setup_wifi_ssids], the success callback of [$.getJSON], the two page
    lifecycle handlers and the browser pieces they talk to (pending timers,
    requests in flight, the table body of the page, the console). *)

From Stdlib Require Import List String Ascii Bool Arith ZArith Lia.
From Stdlib Require Import DecimalString.
Import ListNotations.

Local Open Scope list_scope.
Local Open Scope string_scope.

(** ** Text *)

(** The double quote and the line feed, which a string literal of this file
    cannot hold directly. *)
Definition dq : string := String (ascii_of_nat 34) EmptyString.
Definition nl : string := String (ascii_of_nat 10) EmptyString.

Definition is_digit (c : ascii) : bool :=
  ((48 <=? nat_of_ascii c) && (nat_of_ascii c <=? 57))%nat.

Definition digit_value (c : ascii) : nat := (nat_of_ascii c - 48)%nat.

Fixpoint decimal_from (acc : nat) (ds : string) : nat :=
  match ds with
  | EmptyString => acc
  | String c ds' => decimal_from (10 * acc + digit_value c)%nat ds'
  end.

Definition decimal (ds : string) : nat := decimal_from 0 ds.

Definition is_empty (s : string) : bool :=
  match s with EmptyString => true | String _ _ => false end.

(** Modelled from the spec: the positional [.format()] string helper
    ([String.prototype.format]; it is not part of setup_wifi.js).  Each
    placeholder [{n}] of the template is replaced, in one left to right pass,
    by the text of the n-th argument; the substituted text is not scanned
    again.  A placeholder whose argument is undefined is left as it is.

    [pend] is the scanner state: [None] while copying text, [Some ds] after an
    opening brace followed by the digits [ds]. *)
Definition placeholder (args : list (option string)) (ds : string) : string :=
  match nth_error args (decimal ds) with
  | Some (Some v) => v
  | _ => "{" ++ ds ++ "}"
  end.

Fixpoint format_from (args : list (option string)) (pend : option string)
    (s : string) : string :=
  match s with
  | EmptyString =>
      match pend with
      | None => EmptyString
      | Some ds => "{" ++ ds
      end
  | String c s' =>
      match pend with
      | None =>
          if Ascii.eqb c "{" then format_from args (Some EmptyString) s'
          else String c (format_from args None s')
      | Some ds =>
          if is_digit c then
            format_from args (Some (ds ++ String c EmptyString)) s'
          else if Ascii.eqb c "}" && negb (is_empty ds) then
            placeholder args ds ++ format_from args None s'
          else if Ascii.eqb c "{" then
            "{" ++ ds ++ format_from args (Some EmptyString) s'
          else "{" ++ ds ++ String c (format_from args None s')
      end
  end.

Definition format (template : string) (args : list (option string)) : string :=
  format_from args None template.

(** ** Property keys of an ordinary object

    [for (var i in o)] visits the own keys of [o] that are array indices
    first, in ascending numeric order, and then the other string keys in the
    order in which they were created. *)

Definition all_digits (s : string) : bool :=
  forallb is_digit (list_ascii_of_string s).

Definition canonical (s : string) : bool :=
  match s with
  | EmptyString => false
  | String c EmptyString => is_digit c
  | String c _ => is_digit c && negb (Ascii.eqb c "0") && all_digits s
  end.

Fixpoint decimal_N_from (acc : N) (ds : string) : N :=
  match ds with
  | EmptyString => acc
  | String c ds' => decimal_N_from (10 * acc + N.of_nat (digit_value c))%N ds'
  end.

(** An array index is the canonical decimal text of an integer below
    2^32 - 1. *)
Definition array_index (k : string) : option N :=
  if canonical k then
    let n := decimal_N_from 0 k in
    if (n <? 4294967295)%N then Some n else None
  else None.

Section Table.

Context {A : Type}.

Fixpoint lookup (k : string) (l : list (string * A)) : option A :=
  match l with
  | [] => None
  | (k', v) :: l' => if String.eqb k k' then Some v else lookup k l'
  end.

Definition has_own (k : string) (l : list (string * A)) : bool :=
  match lookup k l with Some _ => true | None => false end.

Fixpoint overwrite (k : string) (v : A) (l : list (string * A))
    : list (string * A) :=
  match l with
  | [] => []
  | (k', v') :: l' =>
      if String.eqb k k' then (k, v) :: l' else (k', v') :: overwrite k v l'
  end.

(** Does the new key [k] come before the existing key [k'] ? *)
Definition precedes (k k' : string) : bool :=
  match array_index k, array_index k' with
  | Some n, Some n' => (n <? n')%N
  | Some _, None => true
  | None, _ => false
  end.

Fixpoint create (k : string) (v : A) (l : list (string * A))
    : list (string * A) :=
  match l with
  | [] => [(k, v)]
  | (k', v') :: l' =>
      if precedes k k' then (k, v) :: (k', v') :: l'
      else (k', v') :: create k v l'
  end.

(** [o[k] = v] on the own data properties of [o]: an existing key keeps its
    place, a new one takes the place the enumeration order gives it. *)
Definition put (k : string) (v : A) (l : list (string * A))
    : list (string * A) :=
  if has_own k l then overwrite k v l else create k v l.

End Table.

(** The text of an integer-valued number, for the examples. *)
Definition integer_to_string (z : Z) : string :=
  NilZero.string_of_int (Z.to_int z).

(** ** The script

    The script never computes with a number: [quality] is only turned into
    text by [format].  The type of JavaScript numbers and their conversion to
    text are therefore parameters, as is the global [api_base], which another
    script of the page defines. *)

Section SetupWifi.

Context {number : Type}.
Variable number_to_string : number -> string.
Variable api_base : string.

(** *** Data *)

(** One element of the [access-points] array of a scan response. *)
Record AccessPoint := {
  ssid : string;
  auth : string;
  quality : number
}.

(** The body of a scan response that parsed as a JSON object: the field
    [access-points] is an array of records, or is missing ([None]). *)
Record scan_data := {
  access_points : option (list AccessPoint)
}.

(** The property names the script reads from a table entry. *)
Inductive field := Fssid | Fauth | Fquality.

Definition field_name (f : field) : string :=
  match f with
  | Fssid => "ssid"
  | Fauth => "auth"
  | Fquality => "quality"
  end.

(** What [setup_wifi_ssids[i]] and [ap[...]] can evaluate to. *)
Inductive value :=
| VUndefined
| VString (s : string)
| VNumber (n : number)
| VAccessPoint (ap : AccessPoint).

(** [v[f]]: a record has the three fields; a string or a number has no
    property of these names. *)
Definition get (v : value) (f : field) : value :=
  match v with
  | VAccessPoint ap =>
      match f with
      | Fssid => VString (ssid ap)
      | Fauth => VString (auth ap)
      | Fquality => VNumber (quality ap)
      end
  | _ => VUndefined
  end.

(** An argument of [format]: [None] for undefined, else its text. *)
Definition format_arg (v : value) : option string :=
  match v with
  | VUndefined => None
  | VString s => Some s
  | VNumber n => Some (number_to_string n)
  | VAccessPoint _ => Some "[object Object]"
  end.

(** *** The object [setup_wifi_ssids]

    It is created by the literal [{}], so it is an ordinary object whose
    prototype is [Object.prototype].  Assigning the key [__proto__] runs the
    setter inherited from [Object.prototype]: with an object as value it
    replaces the prototype and creates no own property.  [proto = None] is the
    initial prototype, [Some ap] a record installed by such an assignment. *)
Record table := {
  own : list (string * AccessPoint);
  proto : option AccessPoint
}.

Definition empty_table : table := {| own := []; proto := None |}.

(** [setup_wifi_ssids[k] = ap].  The key [__proto__] reaches the inherited
    setter, unless the object had an own property of that name (which no
    assignment creates). *)
Definition table_set (k : string) (ap : AccessPoint) (t : table) : table :=
  if String.eqb k "__proto__" && negb (has_own k (own t))
  then {| own := own t; proto := Some ap |}
  else {| own := put k ap (own t); proto := proto t |}.

(** The properties [for (var i in setup_wifi_ssids)] visits, each with the
    value [setup_wifi_ssids[i]]: the own ones, then the enumerable ones of the
    prototype that no own key hides.  [Object.prototype] has no enumerable
    property; a record has its three fields (they all yield the same row, so
    their relative order does not show). *)
Definition inherited (t : table) : list (string * value) :=
  match proto t with
  | None => []
  | Some p =>
      map (fun f => (field_name f, get (VAccessPoint p) f))
          (filter (fun f => negb (has_own (field_name f) (own t)))
                  [Fssid; Fauth; Fquality])
  end.

Definition for_in (t : table) : list (string * value) :=
  (map (fun e => (fst e, VAccessPoint (snd e))) (own t) ++ inherited t)%list.

(** The record a later read [setup_wifi_ssids[k]] yields, if it yields a
    record: an own property, or for [__proto__] the prototype that the
    inherited getter returns. *)
Definition table_read (k : string) (t : table) : option AccessPoint :=
  match lookup k (own t) with
  | Some ap => Some ap
  | None => if String.eqb k "__proto__" then proto t else None
  end.

(** *** Rows *)

Definition row_template : string :=
  "<tr><th scope=" ++ dq ++ "row" ++ dq ++ ">{0}</th><td>{1}</td><td>{2}</td>".

Definition cell_template : string :=
  "<td class=" ++ dq ++ "text-center" ++ dq ++ ">".

Definition button_template : string :=
  "<button class=" ++ dq ++ "btn btn-sm btn-outline-success" ++ dq
  ++ " ssid=" ++ dq ++ "{0}" ++ dq ++ ">Connect</button></td></tr>" ++ nl.

(** One turn of the second loop: the three [res += ...]. *)
Definition add_row (res : string) (ap : value) : string :=
  ((res
    ++ format row_template
         [format_arg (get ap Fssid); format_arg (get ap Fauth);
          format_arg (get ap Fquality)])
    ++ cell_template)
    ++ format button_template [format_arg (get ap Fssid)].

Definition render (t : table) : string :=
  fold_left (fun res e => add_row res (snd e)) (for_in t) EmptyString.

(** The row of a record, written out, and the row of an entry that has none
    of the three properties (every argument of [format] is undefined). *)
Definition row_text (ap : AccessPoint) : string :=
  "<tr><th scope=" ++ dq ++ "row" ++ dq ++ ">" ++ ssid ap
  ++ "</th><td>" ++ auth ap
  ++ "</td><td>" ++ number_to_string (quality ap) ++ "</td>"
  ++ "<td class=" ++ dq ++ "text-center" ++ dq ++ ">"
  ++ "<button class=" ++ dq ++ "btn btn-sm btn-outline-success" ++ dq
  ++ " ssid=" ++ dq ++ ssid ap ++ dq ++ ">Connect</button></td></tr>" ++ nl.

Definition blank_row : string :=
  "<tr><th scope=" ++ dq ++ "row" ++ dq ++ ">{0}</th><td>{1}</td><td>{2}</td>"
  ++ "<td class=" ++ dq ++ "text-center" ++ dq ++ ">"
  ++ "<button class=" ++ dq ++ "btn btn-sm btn-outline-success" ++ dq
  ++ " ssid=" ++ dq ++ "{0}" ++ dq ++ ">Connect</button></td></tr>" ++ nl.

Definition row_of (v : value) : string :=
  match v with
  | VAccessPoint ap => row_text ap
  | _ => blank_row
  end.

Definition join (l : list string) : string :=
  fold_right append EmptyString l.

(** The first loop: [for (var i in aps)] visits the elements of an array in
    index order, and nothing when [aps] is undefined. *)
Definition for_in_array (aps : option (list AccessPoint)) : list AccessPoint :=
  match aps with
  | None => []
  | Some l => l
  end.

Definition merge (t : table) (aps : option (list AccessPoint)) : table :=
  fold_left (fun t ap => table_set (ssid ap) ap t) (for_in_array aps) t.


(** *** The page and the browser

    What the script can change or observe: its two globals, the content of
    the table body it renders into, the requests it has sent that are not
    answered yet, the timers it has set that have neither fired nor been
    cleared, the clock, and the calls it made, oldest first. *)

Inductive effect :=
| ConsoleLog (msg : string)
| SetHtml (selector html : string)
| GetJSON (url : string)
| SetTimeout (id : nat) (delay : Z)
| ClearTimeout (handle : option nat).

Record world := {
  setup_wifi_scan_timer : option nat;   (* undefined until the first timer *)
  setup_wifi_ssids : table;
  tbody : string;                       (* $("#setup_wifi_ssids tbody") *)
  in_flight : nat;
  timers : list (nat * Z);              (* handle, time at which it is due *)
  next_timer : nat;
  now : Z;                              (* milliseconds *)
  trace : list effect
}.

Definition init (html0 : string) : world := {|
  setup_wifi_scan_timer := None;
  setup_wifi_ssids := empty_table;
  tbody := html0;
  in_flight := 0;
  timers := [];
  next_timer := 1;
  now := 0;
  trace := []
|}.

(** Statements of the script are state transformers over [world]. *)
Definition M (A : Type) : Type := world -> A * world.

Definition ret {A : Type} (a : A) : M A := fun w => (a, w).

Definition bind {A B : Type} (c : M A) (k : A -> M B) : M B :=
  fun w => let (a, w1) := c w in k a w1.

Definition exec {A : Type} (c : M A) (w : world) : world := snd (c w).

Notation "x <- c ;; k" := (bind c (fun x => k))
  (at level 61, c at next level, right associativity).
Notation "c ;; k" := (bind c (fun _ => k))
  (at level 61, right associativity).

Fixpoint for_each {A : Type} (l : list A) (body : A -> M unit) : M unit :=
  match l with
  | [] => ret tt
  | x :: l' => body x ;; for_each l' body
  end.

Definition emit (e : effect) (w : world) : world := {|
  setup_wifi_scan_timer := setup_wifi_scan_timer w;
  setup_wifi_ssids := setup_wifi_ssids w;
  tbody := tbody w;
  in_flight := in_flight w;
  timers := timers w;
  next_timer := next_timer w;
  now := now w;
  trace := (trace w ++ [e])%list
|}.

(** [console.log(msg)] *)
Definition console_log (msg : string) : M unit :=
  fun w => (tt, emit (ConsoleLog msg) w).

(** [$("#setup_wifi_ssids tbody").html(html)] *)
Definition set_html (html : string) : M unit :=
  fun w => (tt, emit (SetHtml "#setup_wifi_ssids tbody" html) {|
    setup_wifi_scan_timer := setup_wifi_scan_timer w;
    setup_wifi_ssids := setup_wifi_ssids w;
    tbody := html;
    in_flight := in_flight w;
    timers := timers w;
    next_timer := next_timer w;
    now := now w;
    trace := trace w
  |}).

(** [$.getJSON(url, callback)]: the request leaves, the call returns. *)
Definition get_json (url : string) : M unit :=
  fun w => (tt, emit (GetJSON url) {|
    setup_wifi_scan_timer := setup_wifi_scan_timer w;
    setup_wifi_ssids := setup_wifi_ssids w;
    tbody := tbody w;
    in_flight := S (in_flight w);
    timers := timers w;
    next_timer := next_timer w;
    now := now w;
    trace := trace w
  |}).

(** [setTimeout(setup_wifi_scan, delay)]: a fresh handle, due [delay]
    milliseconds from now. *)
Definition set_timeout (delay : Z) : M nat :=
  fun w => (next_timer w, emit (SetTimeout (next_timer w) delay) {|
    setup_wifi_scan_timer := setup_wifi_scan_timer w;
    setup_wifi_ssids := setup_wifi_ssids w;
    tbody := tbody w;
    in_flight := in_flight w;
    timers := (timers w ++ [(next_timer w, (now w + delay)%Z)])%list;
    next_timer := S (next_timer w);
    now := now w;
    trace := trace w
  |}).

Definition cancel (handle : option nat) (l : list (nat * Z)) : list (nat * Z) :=
  match handle with
  | None => l
  | Some h => filter (fun t => negb (Nat.eqb (fst t) h)) l
  end.

(** [clearTimeout(handle)]: nothing happens when the handle is undefined or
    names no pending timer. *)
Definition clear_timeout (handle : option nat) : M unit :=
  fun w => (tt, emit (ClearTimeout handle) {|
    setup_wifi_scan_timer := setup_wifi_scan_timer w;
    setup_wifi_ssids := setup_wifi_ssids w;
    tbody := tbody w;
    in_flight := in_flight w;
    timers := cancel handle (timers w);
    next_timer := next_timer w;
    now := now w;
    trace := trace w
  |}).

Definition read_scan_timer : M (option nat) :=
  fun w => (setup_wifi_scan_timer w, w).

Definition write_scan_timer (id : nat) : M unit :=
  fun w => (tt, {|
    setup_wifi_scan_timer := Some id;
    setup_wifi_ssids := setup_wifi_ssids w;
    tbody := tbody w;
    in_flight := in_flight w;
    timers := timers w;
    next_timer := next_timer w;
    now := now w;
    trace := trace w
  |}).

Definition read_ssids : M table :=
  fun w => (setup_wifi_ssids w, w).

Definition with_ssids (t : table) (w : world) : world := {|
  setup_wifi_scan_timer := setup_wifi_scan_timer w;
  setup_wifi_ssids := t;
  tbody := tbody w;
  in_flight := in_flight w;
  timers := timers w;
  next_timer := next_timer w;
  now := now w;
  trace := trace w
|}.

(** [setup_wifi_ssids[k] = ap] *)
Definition assign_ssid (k : string) (ap : AccessPoint) : M unit :=
  fun w => (tt, with_ssids (table_set k ap (setup_wifi_ssids w)) w).

(** *** The functions of setup_wifi.js *)

(** The success callback handed to [$.getJSON]. *)
Definition scan_done (data : scan_data) : M unit :=
  let aps := access_points data in
  console_log "scan done" ;;
  for_each (for_in_array aps) (fun ap => assign_ssid (ssid ap) ap) ;;
  t <- read_ssids ;;
  let res := render t in
  set_html res ;;
  id <- set_timeout 5000 ;;
  write_scan_timer id.

Definition setup_wifi_scan : M unit :=
  get_json (api_base ++ "wifi/scan").

Definition setup_wifi_on_activate : M unit :=
  console_log "setup wifi activate" ;;
  set_html "<tr><td>Scanning...</td></tr>" ;;
  setup_wifi_scan.

Definition setup_wifi_on_deactivate : M unit :=
  console_log "setup wifi DEactivate" ;;
  h <- read_scan_timer ;;
  clear_timeout h.

(** *** Events

    What can happen to the page: the router calls a lifecycle handler, a
    request in flight is answered, a pending timer that is due fires, time
    passes.  [$.getJSON] calls its callback only for a response that arrived
    and parsed; for the others no code of the script runs. *)

Inductive outcome :=
| NetworkError
| MalformedJSON
| Success (data : scan_data).

Inductive event :=
| Activate
| Deactivate
| Response (o : outcome)
| Fire (id : nat)
| Advance (ms : Z).

Definition answered (n : nat) (w : world) : world := {|
  setup_wifi_scan_timer := setup_wifi_scan_timer w;
  setup_wifi_ssids := setup_wifi_ssids w;
  tbody := tbody w;
  in_flight := n;
  timers := timers w;
  next_timer := next_timer w;
  now := now w;
  trace := trace w
|}.

Definition expire (id : nat) (w : world) : world := {|
  setup_wifi_scan_timer := setup_wifi_scan_timer w;
  setup_wifi_ssids := setup_wifi_ssids w;
  tbody := tbody w;
  in_flight := in_flight w;
  timers := cancel (Some id) (timers w);
  next_timer := next_timer w;
  now := now w;
  trace := trace w
|}.

Definition tick (ms : Z) (w : world) : world := {|
  setup_wifi_scan_timer := setup_wifi_scan_timer w;
  setup_wifi_ssids := setup_wifi_ssids w;
  tbody := tbody w;
  in_flight := in_flight w;
  timers := timers w;
  next_timer := next_timer w;
  now := (now w + ms)%Z;
  trace := trace w
|}.

Definition due_time (id : nat) (l : list (nat * Z)) : option Z :=
  option_map snd (find (fun t => Nat.eqb (fst t) id) l).

(** One event; [None] when it cannot happen in [w] (no request to answer, no
    such timer or not due yet, time running backwards). *)
Definition step (w : world) (e : event) : option world :=
  match e with
  | Activate => Some (exec setup_wifi_on_activate w)
  | Deactivate => Some (exec setup_wifi_on_deactivate w)
  | Response o =>
      match in_flight w with
      | O => None
      | S n =>
          match o with
          | Success data => Some (exec (scan_done data) (answered n w))
          | NetworkError | MalformedJSON => Some (answered n w)
          end
      end
  | Fire id =>
      match due_time id (timers w) with
      | Some due =>
          if (due <=? now w)%Z then Some (exec setup_wifi_scan (expire id w))
          else None
      | None => None
      end
  | Advance ms =>
      if (0 <=? ms)%Z then Some (tick ms w) else None
  end.

Fixpoint run (w : world) (evs : list event) : option world :=
  match evs with
  | [] => Some w
  | e :: evs' =>
      match step w e with
      | Some w' => run w' evs'
      | None => None
      end
  end.

(** *** Observations *)

Definition is_dispatch (e : effect) : bool :=
  match e with GetJSON _ => true | _ => false end.

(** The number of scan requests sent so far. *)
Definition dispatches (w : world) : nat :=
  List.length (filter is_dispatch (trace w)).

Definition is_activate (e : event) : bool :=
  match e with Activate => true | _ => false end.

(** No poll chain is alive: nothing in flight, no timer pending. *)
Definition idle (w : world) : bool :=
  Nat.eqb (in_flight w) 0 && Nat.eqb (List.length (timers w)) 0.

(** The run calls [activate()] only in idle states. *)
Fixpoint activates_when_idle (w : world) (evs : list event) : bool :=
  match evs with
  | [] => true
  | e :: evs' =>
      (if is_activate e then idle w else true) &&
      match step w e with
      | Some w' => activates_when_idle w' evs'
      | None => true
      end
  end.

(** The view is active when the last lifecycle call was [activate()]. *)
Fixpoint active_after (a : bool) (evs : list event) : bool :=
  match evs with
  | [] => a
  | Activate :: evs' => active_after true evs'
  | Deactivate :: evs' => active_after false evs'
  | _ :: evs' => active_after a evs'
  end.

Definition no_activate (evs : list event) : bool :=
  forallb (fun e => negb (is_activate e)) evs.

(** Every pending timer has a handle that [setTimeout] has already given out. *)
Definition fresh (w : world) : Prop :=
  forall t, In t (timers w) -> (fst t < next_timer w)%nat.

(** The [access-points] fields of the responses the callback ran for. *)
Fixpoint responses (evs : list event) : list (option (list AccessPoint)) :=
  match evs with
  | [] => []
  | Response (Success data) :: evs' => access_points data :: responses evs'
  | _ :: evs' => responses evs'
  end.

(** The table after the callback has run for each of [rs] in turn, starting
    from the empty object of the script. *)
Definition merge_all (rs : list (list AccessPoint)) : table :=
  fold_left (fun t aps => merge t (Some aps)) rs empty_table.

(** The SSIDs of a sequence of responses, and the last record seen for one. *)
Definition records (rs : list (list AccessPoint)) : list AccessPoint :=
  List.concat rs.

Fixpoint last_with (k : string) (l : list AccessPoint) : option AccessPoint :=
  match l with
  | [] => None
  | ap :: l' =>
      match last_with k l' with
      | Some ap' => Some ap'
      | None => if String.eqb k (ssid ap) then Some ap else None
      end
  end.

(** *** More observations of a run *)

Definition is_fire (e : event) : bool :=
  match e with Fire _ => true | _ => false end.

Definition is_response (e : event) : bool :=
  match e with Response _ => true | _ => false end.

Definition count (p : event -> bool) (evs : list event) : nat :=
  List.length (filter p evs).

(** The records of all the responses the callback ran for, oldest first. *)
Definition seen (evs : list event) : list AccessPoint :=
  List.concat (map for_in_array (responses evs)).

(** The calls the script makes: its three log messages, writes into its own
    table body, requests to the scan URL, timers of 5000 ms, and
    [clearTimeout]. *)
Definition script_call (e : effect) : bool :=
  match e with
  | ConsoleLog msg =>
      String.eqb msg "scan done" || String.eqb msg "setup wifi activate"
      || String.eqb msg "setup wifi DEactivate"
  | SetHtml selector _ => String.eqb selector "#setup_wifi_ssids tbody"
  | GetJSON url => String.eqb url (api_base ++ "wifi/scan")
  | SetTimeout _ delay => (delay =? 5000)%Z
  | ClearTimeout _ => true
  end.

(** Keys listed in enumeration order: no key stands behind a key it
    precedes. *)
Fixpoint enumeration_order (l : list string) : bool :=
  match l with
  | [] => true
  | k :: l' =>
      forallb (fun k' => negb (precedes k' k)) l' && enumeration_order l'
  end.

(** *** Registration with the page router

    The last statement of the script stores an object with the two lifecycle
    handlers, the name of the configuration section and the configuration
    handler under the key [#setup_wifi] of [pages_map], an object of the
    router, modelled by its own properties.  The type of a configuration is
    the router's business. *)

Context {config : Type}.





(** ** Facts about text and keys *)

Lemma append_assoc (a b c : string) : (a ++ b) ++ c = a ++ (b ++ c).
Proof.
  induction a as [|ch a IH]; simpl; [reflexivity | now rewrite IH].
Qed.

Lemma append_empty_r (a : string) : a ++ EmptyString = a.
Proof.
  induction a as [|ch a IH]; simpl; [reflexivity | now rewrite IH].
Qed.

Section TableFacts.

Context {A : Type}.
Implicit Types (k : string) (v : A) (l : list (string * A)).

Lemma lookup_overwrite k k' v l :
  has_own k l = true ->
  lookup k' (overwrite k v l) = if String.eqb k' k then Some v else lookup k' l.
Proof.
  unfold has_own.
  induction l as [|[k0 v0] l IH]; simpl; [discriminate|].
  destruct (String.eqb_spec k k0) as [->|Hk]; simpl.
  - intros _. destruct (String.eqb_spec k' k0); reflexivity.
  - intros H. rewrite (IH H).
    destruct (String.eqb_spec k' k0) as [->|]; [|reflexivity].
    destruct (String.eqb_spec k0 k); [congruence | reflexivity].
Qed.

Lemma lookup_create k k' v l :
  has_own k l = false ->
  lookup k' (create k v l) = if String.eqb k' k then Some v else lookup k' l.
Proof.
  unfold has_own.
  induction l as [|[k0 v0] l IH]; simpl; [reflexivity|].
  destruct (String.eqb_spec k k0) as [->|Hk]; [discriminate|].
  intros H. destruct (precedes k k0); simpl; [reflexivity|].
  rewrite (IH H).
  destruct (String.eqb_spec k' k0) as [->|]; [|reflexivity].
  destruct (String.eqb_spec k0 k); [congruence | reflexivity].
Qed.

(** Reading after writing: the written key yields the new value, the others
    what they held. *)
Lemma lookup_put k k' v l :
  lookup k' (put k v l) = if String.eqb k' k then Some v else lookup k' l.
Proof.
  unfold put. destruct (has_own k l) eqn:H.
  - now apply lookup_overwrite.
  - now apply lookup_create.
Qed.

Lemma keys_overwrite k v l :
  has_own k l = true -> map fst (overwrite k v l) = map fst l.
Proof.
  unfold has_own.
  induction l as [|[k0 v0] l IH]; simpl; [reflexivity|].
  destruct (String.eqb_spec k k0) as [->|Hk]; simpl; [reflexivity|].
  intros H. now rewrite (IH H).
Qed.

Lemma keys_create k v l x :
  In x (map fst (create k v l)) <-> x = k \/ In x (map fst l).
Proof.
  induction l as [|[k0 v0] l IH]; simpl.
  - intuition congruence.
  - destruct (precedes k k0); simpl; [intuition congruence|].
    rewrite IH. intuition congruence.
Qed.

Lemma lookup_in_keys k l :
  has_own k l = true <-> In k (map fst l).
Proof.
  unfold has_own.
  induction l as [|[k0 v0] l IH]; simpl.
  - split; [discriminate | tauto].
  - destruct (String.eqb_spec k k0) as [->|Hk].
    + tauto.
    + rewrite IH. intuition congruence.
Qed.

(** A write adds its key to the keys and removes none. *)
Lemma keys_put k v l x :
  In x (map fst (put k v l)) <-> x = k \/ In x (map fst l).
Proof.
  unfold put. destruct (has_own k l) eqn:H.
  - rewrite (keys_overwrite _ _ _ H). apply lookup_in_keys in H.
    intuition congruence.
  - apply keys_create.
Qed.

Lemma nodup_create k v l :
  has_own k l = false -> NoDup (map fst l) -> NoDup (map fst (create k v l)).
Proof.
  intros H. assert (Hk : ~ In k (map fst l)).
  { rewrite <- lookup_in_keys. congruence. }
  clear H. induction l as [|[k0 v0] l IH]; simpl in *; intros Hn.
  - constructor; [tauto | constructor].
  - destruct (precedes k k0); simpl.
    + constructor; [simpl; tauto | assumption].
    + inversion Hn as [|? ? Hk0 Hl]; subst.
      constructor; [|apply IH; tauto].
      rewrite keys_create. intuition congruence.
Qed.

(** No key is listed twice. *)
Lemma nodup_put k v l :
  NoDup (map fst l) -> NoDup (map fst (put k v l)).
Proof.
  unfold put. destruct (has_own k l) eqn:H.
  - now rewrite (keys_overwrite _ _ _ H).
  - now apply nodup_create.
Qed.

Lemma lookup_in k v l :
  lookup k l = Some v -> In (k, v) l.
Proof.
  induction l as [|[k0 v0] l IH]; simpl; [discriminate|].
  destruct (String.eqb_spec k k0) as [->|Hk].
  - intros [= ->]. now left.
  - intros H. right. now apply IH.
Qed.

End TableFacts.


(** ** Facts about the table and the rows *)

Lemma table_read_set (k k' : string) (ap : AccessPoint) (t : table) :
  table_read k (table_set k' ap t)
  = if String.eqb k k' then Some ap else table_read k t.
Proof.
  unfold table_set, table_read.
  destruct (String.eqb_spec k' "__proto__") as [->|Hp]; simpl.
  - destruct (has_own "__proto__" (own t)) eqn:Ho; simpl.
    + rewrite lookup_put. destruct (String.eqb_spec k "__proto__"); reflexivity.
    + destruct (String.eqb_spec k "__proto__") as [->|Hk].
      * unfold has_own in Ho.
        destruct (lookup "__proto__" (own t)); [discriminate | reflexivity].
      * reflexivity.
  - rewrite lookup_put. destruct (String.eqb_spec k k'); reflexivity.
Qed.

Lemma merge_cons (t : table) (ap : AccessPoint) (aps : list AccessPoint) :
  merge t (Some (ap :: aps)) = merge (table_set (ssid ap) ap t) (Some aps).
Proof. reflexivity. Qed.

(** After a response, a read of the table yields the last record of the
    response for an SSID it mentions, and what it yielded before for any
    other key. *)
Lemma table_read_merge (k : string) (aps : list AccessPoint) (t : table) :
  table_read k (merge t (Some aps))
  = match last_with k aps with
    | Some ap => Some ap
    | None => table_read k t
    end.
Proof.
  revert t. induction aps as [|ap aps IH]; intros t; [reflexivity|].
  rewrite merge_cons, IH. simpl.
  destruct (last_with k aps); [reflexivity|].
  rewrite table_read_set. now destruct (String.eqb k (ssid ap)).
Qed.

Lemma merge_app (t : table) (l1 l2 : list AccessPoint) :
  merge t (Some (l1 ++ l2)%list) = merge (merge t (Some l1)) (Some l2).
Proof. unfold merge. simpl. apply fold_left_app. Qed.

Lemma last_with_some (k : string) (l : list AccessPoint) (ap : AccessPoint) :
  last_with k l = Some ap -> In ap l /\ ssid ap = k.
Proof.
  induction l as [|a l IH]; simpl; [discriminate|].
  destruct (last_with k l) as [a'|].
  - intros [= <-]. destruct (IH eq_refl). tauto.
  - destruct (String.eqb_spec k (ssid a)); [|discriminate].
    intros [= <-]. auto.
Qed.

Lemma last_with_none (k : string) (l : list AccessPoint) :
  last_with k l = None <-> ~ In k (map ssid l).
Proof.
  induction l as [|a l IH]; simpl; [tauto|].
  destruct (last_with k l) as [a'|] eqn:Hl.
  - split; [discriminate|]. intros H. exfalso. apply H. right.
    destruct (last_with_some k l a' Hl) as [Hin <-].
    now apply in_map.
  - destruct (String.eqb_spec k (ssid a)) as [->|Hk].
    + split; [discriminate | tauto].
    + split; [|reflexivity]. intros _ [H|H]; [congruence|]. now apply IH.
Qed.

Lemma format_row (a b c : string) :
  format row_template [Some a; Some b; Some c]
  = "<tr><th scope=" ++ dq ++ "row" ++ dq ++ ">" ++ a
    ++ "</th><td>" ++ b ++ "</td><td>" ++ c ++ "</td>".
Proof. reflexivity. Qed.

Lemma format_button (a : string) :
  format button_template [Some a]
  = "<button class=" ++ dq ++ "btn btn-sm btn-outline-success" ++ dq
    ++ " ssid=" ++ dq ++ a ++ dq ++ ">Connect</button></td></tr>" ++ nl.
Proof. reflexivity. Qed.

Lemma format_row_undefined :
  format row_template [None; None; None]
  = "<tr><th scope=" ++ dq ++ "row" ++ dq ++ ">{0}</th><td>{1}</td><td>{2}</td>".
Proof. reflexivity. Qed.

Lemma format_button_undefined :
  format button_template [None]
  = "<button class=" ++ dq ++ "btn btn-sm btn-outline-success" ++ dq
    ++ " ssid=" ++ dq ++ "{0}" ++ dq ++ ">Connect</button></td></tr>" ++ nl.
Proof. reflexivity. Qed.

(** One turn of the rendering loop appends the row of the entry. *)
Lemma add_row_eq (res : string) (v : value) :
  add_row res v = res ++ row_of v.
Proof.
  unfold add_row. rewrite !append_assoc. f_equal.
  destruct v as [|s|n|ap]; cbn [get format_arg row_of];
    rewrite ?format_row, ?format_button, ?format_row_undefined,
            ?format_button_undefined;
    unfold row_text, blank_row, cell_template;
    rewrite ?append_assoc; reflexivity.
Qed.

Lemma fold_add_row (l : list (string * value)) (res : string) :
  fold_left (fun res e => add_row res (snd e)) l res
  = res ++ join (map (fun e => row_of (snd e)) l).
Proof.
  revert res. induction l as [|e l IH]; intros res; simpl.
  - now rewrite append_empty_r.
  - now rewrite IH, add_row_eq, append_assoc.
Qed.

(** The rendered text is the rows of the visited properties, in order. *)
Lemma render_rows (t : table) :
  render t = join (map (fun e => row_of (snd e)) (for_in t)).
Proof. unfold render. now rewrite fold_add_row. Qed.

Lemma join_app (l1 l2 : list string) :
  join (l1 ++ l2)%list = join l1 ++ join l2.
Proof.
  induction l1 as [|x l1 IH]; simpl; [reflexivity|].
  now rewrite IH, append_assoc.
Qed.


(** ** What the functions of the script do to the page *)

Ltac script :=
  unfold setup_wifi_on_activate, setup_wifi_on_deactivate, setup_wifi_scan;
  cbv beta iota zeta delta
    [exec bind ret console_log set_html get_json set_timeout clear_timeout
     read_scan_timer write_scan_timer read_ssids emit with_ssids fst snd
     setup_wifi_scan_timer setup_wifi_ssids tbody in_flight timers next_timer
     now trace];
  rewrite <- ?app_assoc; cbn [app].

Lemma bind_exec {A B : Type} (c : M A) (k : A -> M B) (w : world) :
  exec (bind c k) w = exec (k (fst (c w))) (snd (c w)).
Proof. unfold exec, bind. now destruct (c w). Qed.

Lemma with_ssids_same (w : world) : with_ssids (setup_wifi_ssids w) w = w.
Proof. now destruct w. Qed.

Lemma for_each_assign (l : list AccessPoint) (w : world) :
  for_each l (fun ap => assign_ssid (ssid ap) ap) w
  = (tt, with_ssids (merge (setup_wifi_ssids w) (Some l)) w).
Proof.
  revert w. induction l as [|ap l IH]; intros w.
  - unfold merge. cbn [for_each for_in_array fold_left]. unfold ret.
    now rewrite with_ssids_same.
  - cbn [for_each]. unfold bind.
    change (assign_ssid (ssid ap) ap w)
      with (tt, with_ssids (table_set (ssid ap) ap (setup_wifi_ssids w)) w).
    cbn beta iota. rewrite IH. reflexivity.
Qed.

Lemma for_each_assign_data (data : scan_data) (w : world) :
  for_each (for_in_array (access_points data))
           (fun ap => assign_ssid (ssid ap) ap) w
  = (tt, with_ssids (merge (setup_wifi_ssids w) (access_points data)) w).
Proof.
  destruct (access_points data) as [l|].
  - apply for_each_assign.
  - unfold merge. cbn [for_each for_in_array fold_left]. unfold ret.
    now rewrite with_ssids_same.
Qed.

(** The success callback: log, merge the records, render the whole table,
    set a timer 5000 ms ahead and remember its handle. *)
Lemma scan_done_eq (data : scan_data) (w : world) :
  exec (scan_done data) w
  = let t := merge (setup_wifi_ssids w) (access_points data) in
    {| setup_wifi_scan_timer := Some (next_timer w);
       setup_wifi_ssids := t;
       tbody := render t;
       in_flight := in_flight w;
       timers := (timers w ++ [(next_timer w, (now w + 5000)%Z)])%list;
       next_timer := S (next_timer w);
       now := now w;
       trace := (trace w ++ [ConsoleLog "scan done";
                             SetHtml "#setup_wifi_ssids tbody" (render t);
                             SetTimeout (next_timer w) 5000])%list |}.
Proof.
  unfold scan_done. rewrite bind_exec. cbn [console_log fst snd].
  rewrite bind_exec, for_each_assign_data. cbn [fst snd].
  change (setup_wifi_ssids (emit (ConsoleLog "scan done") w))
    with (setup_wifi_ssids w).
  cbn zeta. generalize (merge (setup_wifi_ssids w) (access_points data)).
  intros t. unfold with_ssids. script. reflexivity.
Qed.

Lemma setup_wifi_scan_eq (w : world) :
  exec setup_wifi_scan w
  = {| setup_wifi_scan_timer := setup_wifi_scan_timer w;
       setup_wifi_ssids := setup_wifi_ssids w;
       tbody := tbody w;
       in_flight := S (in_flight w);
       timers := timers w;
       next_timer := next_timer w;
       now := now w;
       trace := (trace w ++ [GetJSON (api_base ++ "wifi/scan")])%list |}.
Proof. reflexivity. Qed.

Lemma on_activate_eq (w : world) :
  exec setup_wifi_on_activate w
  = {| setup_wifi_scan_timer := setup_wifi_scan_timer w;
       setup_wifi_ssids := setup_wifi_ssids w;
       tbody := "<tr><td>Scanning...</td></tr>";
       in_flight := S (in_flight w);
       timers := timers w;
       next_timer := next_timer w;
       now := now w;
       trace := (trace w ++ [ConsoleLog "setup wifi activate";
                             SetHtml "#setup_wifi_ssids tbody"
                                     "<tr><td>Scanning...</td></tr>";
                             GetJSON (api_base ++ "wifi/scan")])%list |}.
Proof.
  script. reflexivity.
Qed.

Lemma on_deactivate_eq (w : world) :
  exec setup_wifi_on_deactivate w
  = {| setup_wifi_scan_timer := setup_wifi_scan_timer w;
       setup_wifi_ssids := setup_wifi_ssids w;
       tbody := tbody w;
       in_flight := in_flight w;
       timers := cancel (setup_wifi_scan_timer w) (timers w);
       next_timer := next_timer w;
       now := now w;
       trace := (trace w ++ [ConsoleLog "setup wifi DEactivate";
                             ClearTimeout (setup_wifi_scan_timer w)])%list |}.
Proof.
  script. reflexivity.
Qed.

Lemma dispatches_app (tr : list effect) (w w' : world) :
  trace w' = (trace w ++ tr)%list ->
  dispatches w' = (dispatches w + List.length (filter is_dispatch tr))%nat.
Proof.
  unfold dispatches. intros ->. now rewrite filter_app, length_app.
Qed.

(** ** Timers *)

Lemma cancel_length (h : option nat) (l : list (nat * Z)) :
  (List.length (cancel h l) <= List.length l)%nat.
Proof.
  destruct h as [h|]; simpl; [|lia].
  induction l as [|t l IH]; simpl; [lia|].
  destruct (negb (fst t =? h)%nat); simpl; lia.
Qed.

Lemma cancel_due (id : nat) (due : Z) (l : list (nat * Z)) :
  due_time id l = Some due ->
  (List.length (cancel (Some id) l) < List.length l)%nat.
Proof.
  unfold due_time. simpl.
  induction l as [|t l IH]; simpl; [discriminate|].
  destruct (fst t =? id)%nat eqn:E; simpl.
  - intros _. pose proof (cancel_length (Some id) l) as H. simpl in H. lia.
  - intros H. specialize (IH H). lia.
Qed.

Lemma cancel_none (h : nat) (l : list (nat * Z)) :
  due_time h l = None -> cancel (Some h) l = l.
Proof.
  unfold due_time. simpl.
  induction l as [|t l IH]; simpl; [reflexivity|].
  destruct (fst t =? h)%nat eqn:E; simpl; [discriminate|].
  intros H. now rewrite (IH H).
Qed.

Lemma cancel_all (h : nat) (l : list (nat * Z)) :
  (forall t, In t l -> fst t = h) -> cancel (Some h) l = [].
Proof.
  simpl. induction l as [|t l IH]; simpl; [reflexivity|].
  intros H. rewrite (H t (or_introl eq_refl)), Nat.eqb_refl. simpl.
  apply IH. auto.
Qed.



Lemma cancel_incl (h : option nat) (l : list (nat * Z)) (t : nat * Z) :
  In t (cancel h l) -> In t l.
Proof.
  destruct h as [h|]; simpl; [|tauto].
  rewrite filter_In. tauto.
Qed.

(** ** Runs *)

Lemma step_fresh (w w' : world) (e : event) :
  fresh w -> step w e = Some w' -> fresh w'.
Proof.
  unfold fresh. intros Hf. destruct e as [| |o|id|ms]; simpl.
  - intros [= <-]. rewrite on_activate_eq. simpl. exact Hf.
  - intros [= <-]. rewrite on_deactivate_eq. simpl.
    intros t Ht. apply Hf. eapply cancel_incl, Ht.
  - destruct (in_flight w) as [|n]; [discriminate|].
    destruct o as [| |data]; intros [= <-]; try exact Hf.
    rewrite scan_done_eq. simpl. intros t Ht.
    apply in_app_or in Ht. destruct Ht as [Ht|[<-|[]]]; simpl.
    + specialize (Hf t Ht). lia.
    + lia.
  - destruct (due_time id (timers w)) as [due|]; [|discriminate].
    destruct (due <=? now w)%Z; [|discriminate].
    intros [= <-]. rewrite setup_wifi_scan_eq. simpl.
    intros t Ht. apply Hf. rewrite filter_In in Ht. tauto.
  - destruct (0 <=? ms)%Z; [|discriminate]. intros [= <-]. exact Hf.
Qed.


Lemma init_fresh (html0 : string) : fresh (init html0).
Proof. intros t []. Qed.

Lemma run_app (evs1 evs2 : list event) (w : world) :
  run w (evs1 ++ evs2)%list
  = match run w evs1 with
    | Some w1 => run w1 evs2
    | None => None
    end.
Proof.
  revert w. induction evs1 as [|e evs1 IH]; simpl; intros w; [reflexivity|].
  destruct (step w e); [apply IH | reflexivity].
Qed.

(** The table after a run is the table before it with the answered
    responses merged in, in the order of their arrival. *)
Lemma run_table (evs : list event) (w w' : world) :
  run w evs = Some w' ->
  setup_wifi_ssids w' = fold_left merge (responses evs) (setup_wifi_ssids w).
Proof.
  revert w. induction evs as [|e evs IH]; simpl; intros w.
  - now intros [= <-].
  - destruct (step w e) as [w1|] eqn:E; [|discriminate].
    intros H. rewrite (IH _ H). clear IH H.
    destruct e as [| |o|id|ms]; simpl in E.
    + injection E as <-. now rewrite on_activate_eq.
    + injection E as <-. now rewrite on_deactivate_eq.
    + destruct (in_flight w) as [|n]; [discriminate|].
      destruct o as [| |data]; injection E as <-; try reflexivity.
      now rewrite scan_done_eq.
    + destruct (due_time id (timers w)) as [due|]; [|discriminate].
      destruct (due <=? now w)%Z; [|discriminate].
      injection E as <-. now rewrite setup_wifi_scan_eq.
    + destruct (0 <=? ms)%Z; [|discriminate]. now injection E as <-.
Qed.

(** Once no request is in flight and no timer is pending, nothing but
    [activate()] sends a request. *)
Lemma idle_stays (evs : list event) (w w' : world) :
  idle w = true -> no_activate evs = true -> run w evs = Some w' ->
  idle w' = true /\ dispatches w' = dispatches w.
Proof.
  revert w. induction evs as [|e evs IH]; simpl; intros w Hi Hn.
  - intros [= <-]. auto.
  - apply andb_prop in Hn. destruct Hn as [He Hn].
    destruct (step w e) as [w1|] eqn:E; [|discriminate].
    intros H. unfold idle in Hi. apply andb_prop in Hi.
    destruct Hi as [Hf Ht]. apply Nat.eqb_eq in Hf, Ht.
    apply length_zero_iff_nil in Ht.
    assert (Hw1 : idle w1 = true /\ dispatches w1 = dispatches w).
    { destruct e as [| |o|id|ms]; simpl in E, He.
      - discriminate.
      - injection E as <-. rewrite on_deactivate_eq.
        unfold idle, dispatches. simpl. rewrite Hf, Ht.
        rewrite filter_app, length_app. simpl.
        destruct (setup_wifi_scan_timer w); simpl; auto with arith.
      - rewrite Hf in E. discriminate.
      - rewrite Ht in E. discriminate.
      - destruct (0 <=? ms)%Z; [|discriminate]. injection E as <-.
        unfold idle, dispatches. simpl. rewrite Hf, Ht. auto. }
    destruct Hw1 as [Hi1 Hd1].
    destruct (IH _ Hi1 Hn H) as [Hi' Hd']. split; congruence.
Qed.

(** Each event keeps the number of poll chains (requests in flight plus
    pending timers), except [activate()], which starts one. *)
Lemma step_chains (w w' : world) (e : event) :
  step w e = Some w' ->
  (in_flight w' + List.length (timers w')
   <= in_flight w + List.length (timers w)
      + (if is_activate e then 1 else 0))%nat.
Proof.
  destruct e as [| |o|id|ms]; simpl.
  - intros [= <-]. rewrite on_activate_eq. simpl. lia.
  - intros [= <-]. rewrite on_deactivate_eq. simpl.
    pose proof (cancel_length (setup_wifi_scan_timer w) (timers w)). lia.
  - destruct (in_flight w) as [|n]; [discriminate|].
    destruct o as [| |data]; intros [= <-]; [simpl; lia | simpl; lia |].
    rewrite scan_done_eq. simpl. rewrite length_app. simpl. lia.
  - destruct (due_time id (timers w)) as [due|] eqn:E; [|discriminate].
    destruct (due <=? now w)%Z; [|discriminate].
    intros [= <-]. rewrite setup_wifi_scan_eq. simpl.
    pose proof (cancel_due _ _ _ E) as H. simpl in H. lia.
  - destruct (0 <=? ms)%Z; [|discriminate]. intros [= <-]. simpl. lia.
Qed.

Lemma run_chains (evs : list event) (w w' : world) :
  (in_flight w + List.length (timers w) <= 1)%nat ->
  activates_when_idle w evs = true ->
  run w evs = Some w' ->
  (in_flight w' + List.length (timers w') <= 1)%nat.
Proof.
  revert w. induction evs as [|e evs IH]; simpl; intros w Hc Ha.
  - now intros [= <-].
  - destruct (step w e) as [w1|] eqn:E; [|discriminate].
    apply andb_prop in Ha. destruct Ha as [He Ha].
    apply IH; [|exact Ha].
    pose proof (step_chains _ _ _ E) as H.
    destruct (is_activate e); [|lia].
    unfold idle in He. apply andb_prop in He. destruct He as [H1 H2].
    apply Nat.eqb_eq in H1, H2. lia.
Qed.


(** ** The claims *)

(** C2 (amended).  A request that fails with a network error or with a body
    that is not JSON runs no code of the script: the page is left as it was,
    one request fewer in flight, nothing logged, rendered or scheduled.  If
    that request was the only live poll chain, no scan is sent any more until
    [activate()] is called again.  A JSON object without [access-points] is
    no failure: the callback runs with no record to merge, renders the
    unchanged table and sets the next timer 5000 ms ahead. *)
Theorem failed_scan_ends_chain (w : world) (n : nat) (o : outcome) :
  in_flight w = S n ->
  o = NetworkError \/ o = MalformedJSON ->
  step w (Response o) = Some (answered n w) /\
  (n = 0%nat -> timers w = [] ->
   forall evs w', no_activate evs = true ->
     run (answered n w) evs = Some w' -> dispatches w' = dispatches w) /\
  step w (Response (Success {| access_points := None |}))
  = Some {| setup_wifi_scan_timer := Some (next_timer w);
            setup_wifi_ssids := setup_wifi_ssids w;
            tbody := render (setup_wifi_ssids w);
            in_flight := n;
            timers := (timers w ++ [(next_timer w, (now w + 5000)%Z)])%list;
            next_timer := S (next_timer w);
            now := now w;
            trace := (trace w ++
                      [ConsoleLog "scan done";
                       SetHtml "#setup_wifi_ssids tbody"
                               (render (setup_wifi_ssids w));
                       SetTimeout (next_timer w) 5000])%list |}.
Proof.
  intros Hf Ho. repeat split.
  - simpl. rewrite Hf. destruct Ho as [-> | ->]; reflexivity.
  - intros -> Ht evs w' Hn Hr.
    apply (idle_stays evs (answered 0 w) w'); auto.
    unfold idle. simpl. now rewrite Ht.
  - simpl. rewrite Hf, scan_done_eq. reflexivity.
Qed.


(** C4 (amended).  When [deactivate()] is called while no request is in
    flight and no timer is pending other than the one whose handle is in
    [setup_wifi_scan_timer], then whatever happens afterwards, however long
    it takes, no scan is sent as long as [activate()] is not called. *)
Theorem deactivate_stops_polling (w w' : world) (evs : list event) :
  in_flight w = 0%nat ->
  (forall t, In t (timers w) -> setup_wifi_scan_timer w = Some (fst t)) ->
  no_activate evs = true ->
  run w (Deactivate :: evs) = Some w' ->
  dispatches w' = dispatches w.
Proof.
  intros Hf Ht Hn. cbn [run step]. intros Hr.
  destruct (idle_stays evs (exec setup_wifi_on_deactivate w) w')
    as [_ Hd]; auto.
  - rewrite on_deactivate_eq. unfold idle. cbn [in_flight timers].
    rewrite Hf. simpl.
    destruct (timers w) as [|t l] eqn:El; [now destruct (setup_wifi_scan_timer w)|].
    pose proof (Ht t (or_introl eq_refl)) as H0.
    rewrite H0, cancel_all; [reflexivity|].
    intros t' Ht'. specialize (Ht t' Ht'). congruence.
  - rewrite Hd, on_deactivate_eq. unfold dispatches. cbn [trace].
    rewrite filter_app, length_app. simpl. lia.
Qed.

(** C5 (amended).  From the load of the script on, in every run in which
    [activate()] is only called while no request is in flight and no timer is
    pending, at most one timer is pending at any time, and none while a
    request is in flight. *)
Theorem one_pending_timer (html0 : string) (evs : list event) (w : world) :
  activates_when_idle (init html0) evs = true ->
  run (init html0) evs = Some w ->
  (List.length (timers w) <= 1)%nat /\
  (in_flight w + List.length (timers w) <= 1)%nat.
Proof.
  intros Ha Hr.
  assert (H : (in_flight w + List.length (timers w) <= 1)%nat).
  { apply (run_chains evs (init html0)); auto. }
  lia.
Qed.

(** C6.  [deactivate()] can always be called; it logs, clears the timer named
    by [setup_wifi_scan_timer] and changes nothing else: the table, the page
    and the requests in flight stay as they are.  When the handle is undefined
    or names no pending timer, the pending timers stay as they are too.  A
    following [activate()] sends a scan and still finds the same table. *)
Theorem deactivate_keeps_table (w : world) :
  exists w1 w2,
    step w Deactivate = Some w1 /\
    step w1 Activate = Some w2 /\
    setup_wifi_ssids w1 = setup_wifi_ssids w /\
    tbody w1 = tbody w /\
    in_flight w1 = in_flight w /\
    setup_wifi_scan_timer w1 = setup_wifi_scan_timer w /\
    timers w1 = cancel (setup_wifi_scan_timer w) (timers w) /\
    trace w1 = (trace w ++ [ConsoleLog "setup wifi DEactivate";
                            ClearTimeout (setup_wifi_scan_timer w)])%list /\
    ((forall h, setup_wifi_scan_timer w = Some h ->
                due_time h (timers w) = None) -> timers w1 = timers w) /\
    setup_wifi_ssids w2 = setup_wifi_ssids w /\
    in_flight w2 = S (in_flight w) /\
    dispatches w2 = S (dispatches w).
Proof.
  eexists. eexists. split; [reflexivity|]. split; [reflexivity|].
  rewrite on_activate_eq, on_deactivate_eq.
  cbn [setup_wifi_scan_timer setup_wifi_ssids tbody in_flight timers trace].
  repeat (split; [reflexivity|]). split; [|split; [reflexivity|split; [reflexivity|]]].
  - intros H. destruct (setup_wifi_scan_timer w) as [h|]; [|reflexivity].
    apply cancel_none. now apply H.
  - unfold dispatches. cbn [trace]. rewrite !filter_app, !length_app. simpl. lia.
Qed.

(** C7.  [activate()] logs, puts the one placeholder row "Scanning..." into
    the table body and then sends the scan request, all in the same call: no
    timer is set or awaited and no time passes. *)
Theorem activate_scans_at_once (w : world) :
  exists w',
    step w Activate = Some w' /\
    trace w' = (trace w ++
                [ConsoleLog "setup wifi activate";
                 SetHtml "#setup_wifi_ssids tbody"
                         "<tr><td>Scanning...</td></tr>";
                 GetJSON (api_base ++ "wifi/scan")])%list /\
    tbody w' = "<tr><td>Scanning...</td></tr>" /\
    in_flight w' = S (in_flight w) /\
    dispatches w' = S (dispatches w) /\
    timers w' = timers w /\
    now w' = now w /\
    setup_wifi_ssids w' = setup_wifi_ssids w.
Proof.
  eexists. split; [reflexivity|]. rewrite on_activate_eq.
  cbn [setup_wifi_ssids tbody in_flight timers now trace].
  repeat (split; [reflexivity|]). split; [|repeat split].
  unfold dispatches. cbn [trace]. rewrite filter_app, length_app. simpl. lia.
Qed.

(** C9.  When a response names an SSID more than once, the table afterwards
    yields, for that SSID, the record that comes last in [access-points]. *)
Theorem last_duplicate_wins
    (w : world) (n : nat) (aps : list AccessPoint) (k : string)
    (ap : AccessPoint) :
  in_flight w = S n ->
  last_with k aps = Some ap ->
  exists w',
    step w (Response (Success {| access_points := Some aps |})) = Some w' /\
    table_read k (setup_wifi_ssids w') = Some ap.
Proof.
  intros Hf Hl. eexists. cbn [step]. rewrite Hf. split; [reflexivity|].
  rewrite scan_done_eq. cbn [setup_wifi_ssids answered access_points].
  now rewrite table_read_merge, Hl.
Qed.

(** C10.  The row of every entry of the table carries the entry's SSID, auth
    and quality exactly as they are, between the fixed pieces of markup, in
    the cells and in the [ssid] attribute of the button: nothing is escaped
    or removed, whatever characters the strings contain. *)
Theorem rows_embed_values_verbatim
    (t : table) (k : string) (ap : AccessPoint) :
  In (k, ap) (own t) ->
  exists before after,
    render t
    = before
      ++ "<tr><th scope=" ++ dq ++ "row" ++ dq ++ ">" ++ ssid ap
      ++ "</th><td>" ++ auth ap
      ++ "</td><td>" ++ number_to_string (quality ap) ++ "</td>"
      ++ "<td class=" ++ dq ++ "text-center" ++ dq ++ ">"
      ++ "<button class=" ++ dq ++ "btn btn-sm btn-outline-success" ++ dq
      ++ " ssid=" ++ dq ++ ssid ap ++ dq ++ ">Connect</button></td></tr>" ++ nl
      ++ after.
Proof.
  intros Hin. apply in_split in Hin. destruct Hin as [l1 [l2 Hl]].
  rewrite render_rows. unfold for_in. rewrite Hl.
  rewrite !map_app, !join_app.
  cbn [map join fold_right fst snd row_of].
  exists (join (map (fun e => row_of (snd e))
                    (map (fun e => (fst e, VAccessPoint (snd e))) l1))).
  eexists. unfold row_text. rewrite !append_assoc. reflexivity.
Qed.


(** ** The table without the key [__proto__]

    What the claims C1 and C8 say holds for every run in which no access point
    is called [__proto__]. *)

Lemma merge_all_records (rs : list (list AccessPoint)) :
  merge_all rs = merge empty_table (Some (records rs)).
Proof.
  unfold merge_all, records. generalize empty_table as t.
  induction rs as [|aps rs IH]; intros t; [reflexivity|].
  cbn [fold_left List.concat]. now rewrite IH, merge_app.
Qed.

(** Last write wins, for every SSID and every sequence of responses. *)
Lemma table_read_merge_all (rs : list (list AccessPoint)) (k : string) :
  table_read k (merge_all rs) = last_with k (records rs).
Proof.
  rewrite merge_all_records, table_read_merge.
  destruct (last_with k (records rs)); [reflexivity|].
  unfold table_read. simpl. now destruct (String.eqb k "__proto__").
Qed.

Lemma merge_plain (l : list AccessPoint) (t : table) :
  (forall ap, In ap l -> ssid ap <> "__proto__") ->
  proto (merge t (Some l)) = proto t /\
  (NoDup (map fst (own t)) -> NoDup (map fst (own (merge t (Some l))))) /\
  (forall k, In k (map fst (own (merge t (Some l))))
             <-> In k (map fst (own t)) \/ In k (map ssid l)) /\
  (forall k, lookup k (own (merge t (Some l)))
             = match last_with k l with
               | Some ap => Some ap
               | None => lookup k (own t)
               end).
Proof.
  revert t. induction l as [|ap l IH]; intros t Hp.
  - repeat split; auto; simpl; tauto.
  - rewrite merge_cons.
    assert (Hap : String.eqb (ssid ap) "__proto__" = false).
    { apply String.eqb_neq, Hp. now left. }
    assert (Hts : table_set (ssid ap) ap t
                  = {| own := put (ssid ap) ap (own t); proto := proto t |}).
    { unfold table_set. now rewrite Hap. }
    rewrite Hts.
    destruct (IH {| own := put (ssid ap) ap (own t); proto := proto t |})
      as (H1 & H2 & H3 & H4).
    { intros a Ha. apply Hp. now right. }
    cbn [own proto] in H1, H2, H3, H4.
    repeat split.
    + exact H1.
    + intros Hn. apply H2. now apply nodup_put.
    + rewrite H3, keys_put. simpl. intuition congruence.
    + rewrite H3, keys_put. simpl. intuition congruence.
    + intros k. rewrite H4, lookup_put. simpl.
      destruct (last_with k l); [reflexivity|].
      now destruct (String.eqb k (ssid ap)).
Qed.

(** C1 without [__proto__]: the own keys of the table are exactly the SSIDs
    of the responses, each once, each with the last record seen for it, and
    the rendering loop visits nothing else. *)
Lemma known_aps_exact (rs : list (list AccessPoint)) :
  (forall ap, In ap (records rs) -> ssid ap <> "__proto__") ->
  proto (merge_all rs) = None /\
  NoDup (map fst (own (merge_all rs))) /\
  (forall k, In k (map fst (own (merge_all rs)))
             <-> In k (map ssid (records rs))) /\
  (forall k, lookup k (own (merge_all rs)) = last_with k (records rs)) /\
  map fst (for_in (merge_all rs)) = map fst (own (merge_all rs)).
Proof.
  intros Hp. rewrite merge_all_records.
  destruct (merge_plain (records rs) empty_table Hp) as (H1 & H2 & H3 & H4).
  simpl in H1. repeat split.
  - exact H1.
  - apply H2. constructor.
  - rewrite H3. simpl. tauto.
  - rewrite H3. simpl. tauto.
  - intros k. rewrite H4. now destruct (last_with k (records rs)).
  - unfold for_in, inherited. rewrite H1, app_nil_r, map_map. reflexivity.
Qed.

(** X4.  C8 without [__proto__]: for a table whose prototype was not
    replaced, the rendered text is one row per own entry, in the order of the
    enumeration, and nothing else. *)
Lemma render_own (t : table) :
  proto t = None ->
  render t = join (map (fun e => row_text (snd e)) (own t)).
Proof.
  intros Hp. rewrite render_rows. unfold for_in, inherited.
  now rewrite Hp, app_nil_r, map_map.
Qed.

(** ** Further properties of the script *)

Lemma has_own_table_set (k k' : string) (ap : AccessPoint) (t : table) :
  has_own k (own t) = true -> has_own k (own (table_set k' ap t)) = true.
Proof.
  unfold table_set.
  destruct (String.eqb k' "__proto__" && negb (has_own k' (own t)));
    cbn [own]; [tauto|].
  rewrite !lookup_in_keys, keys_put. tauto.
Qed.

Lemma has_own_merge (k : string) (aps : option (list AccessPoint)) (t : table) :
  has_own k (own t) = true -> has_own k (own (merge t aps)) = true.
Proof.
  unfold merge. generalize (for_in_array aps) as l. intros l. revert t.
  induction l as [|ap l IH]; intros t H; [exact H|].
  cbn [fold_left]. apply IH. now apply has_own_table_set.
Qed.

Lemma nodup_table_set (k : string) (ap : AccessPoint) (t : table) :
  NoDup (map fst (own t)) -> NoDup (map fst (own (table_set k ap t))).
Proof.
  unfold table_set.
  destruct (String.eqb k "__proto__" && negb (has_own k (own t)));
    cbn [own]; [tauto|]. apply nodup_put.
Qed.

Lemma nodup_merge (aps : option (list AccessPoint)) (t : table) :
  NoDup (map fst (own t)) -> NoDup (map fst (own (merge t aps))).
Proof.
  unfold merge. generalize (for_in_array aps) as l. intros l. revert t.
  induction l as [|ap l IH]; intros t H; [exact H|].
  cbn [fold_left]. apply IH. now apply nodup_table_set.
Qed.

Lemma fold_merge (rs : list (option (list AccessPoint))) (t : table) :
  fold_left merge rs t
  = merge t (Some (List.concat (map for_in_array rs))).
Proof.
  revert t. induction rs as [|aps rs IH]; intros t; [reflexivity|].
  cbn [fold_left map List.concat]. rewrite IH, merge_app. reflexivity.
Qed.

Lemma run_table_seen (evs : list event) (w w' : world) :
  run w evs = Some w' ->
  setup_wifi_ssids w' = merge (setup_wifi_ssids w) (Some (seen evs)).
Proof.
  intros H. rewrite (run_table _ _ _ H). apply fold_merge.
Qed.

(** X1.  Nothing the page can go through removes an entry from the table: a
    key the table has keeps being a key of it, whatever events follow. *)
Theorem entries_never_removed
    (evs : list event) (w w' : world) (k : string) :
  run w evs = Some w' ->
  has_own k (own (setup_wifi_ssids w)) = true ->
  has_own k (own (setup_wifi_ssids w')) = true.
Proof.
  intros Hr Hk. rewrite (run_table_seen _ _ _ Hr). now apply has_own_merge.
Qed.


(** X3.  Through any run since the load of the script in which no access
    point is called [__proto__], the keys of the table are exactly the SSIDs
    seen, each listed once, the prototype of the table is untouched, and the
    rendering loop visits these keys and nothing else. *)
Theorem known_aps_over_runs
    (html0 : string) (evs : list event) (w : world) :
  run (init html0) evs = Some w ->
  (forall ap, In ap (seen evs) -> ssid ap <> "__proto__") ->
  proto (setup_wifi_ssids w) = None /\
  NoDup (map fst (own (setup_wifi_ssids w))) /\
  (forall k, In k (map fst (own (setup_wifi_ssids w)))
             <-> In k (map ssid (seen evs))) /\
  map fst (for_in (setup_wifi_ssids w)) = map fst (own (setup_wifi_ssids w)).
Proof.
  intros Hr Hp. rewrite (run_table_seen _ _ _ Hr). cbn [init setup_wifi_ssids].
  destruct (merge_plain (seen evs) empty_table Hp) as (H1 & H2 & H3 & _).
  simpl in H1. repeat split.
  - exact H1.
  - apply H2. constructor.
  - rewrite H3. simpl. tauto.
  - rewrite H3. simpl. tauto.
  - unfold for_in, inherited. rewrite H1, app_nil_r, map_map. reflexivity.
Qed.


Lemma overwrite_split {A : Type} (k : string) (v old : A)
    (l1 l2 : list (string * A)) :
  has_own k l1 = false ->
  overwrite k v (l1 ++ (k, old) :: l2)%list = (l1 ++ (k, v) :: l2)%list.
Proof.
  unfold has_own.
  induction l1 as [|[k0 v0] l1 IH]; simpl.
  - now rewrite String.eqb_refl.
  - destruct (String.eqb k k0); [discriminate|].
    intros H. now rewrite (IH H).
Qed.

Lemma has_own_split {A : Type} (k : string) (old : A)
    (l1 l2 : list (string * A)) :
  has_own k (l1 ++ (k, old) :: l2)%list = true.
Proof.
  rewrite lookup_in_keys, map_app, in_app_iff. right. now left.
Qed.

(** X5.  An access point that is seen again keeps its place: the record
    stored under its SSID is replaced where it stands, the entries before and
    after it stay as they are, and so does the prototype of the table. *)
Theorem seen_again_keeps_position
    (k : string) (ap old : AccessPoint) (t : table)
    (l1 l2 : list (string * AccessPoint)) :
  own t = (l1 ++ (k, old) :: l2)%list ->
  has_own k l1 = false ->
  own (table_set k ap t) = (l1 ++ (k, ap) :: l2)%list /\
  proto (table_set k ap t) = proto t.
Proof.
  intros Ho Hk. unfold table_set.
  assert (H : has_own k (own t) = true) by (rewrite Ho; apply has_own_split).
  rewrite H, andb_false_r. cbn [own proto]. split; [|reflexivity].
  unfold put. rewrite H, Ho. now apply overwrite_split.
Qed.

Lemma precedes_plain (k k' : string) :
  array_index k = None -> precedes k k' = false.
Proof. unfold precedes. now intros ->. Qed.

Lemma create_append {A : Type} (k : string) (v : A) (l : list (string * A)) :
  array_index k = None -> create k v l = (l ++ [(k, v)])%list.
Proof.
  intros H. induction l as [|[k0 v0] l IH]; simpl; [reflexivity|].
  now rewrite (precedes_plain k k0 H), IH.
Qed.

(** X6.  An access point seen for the first time, whose SSID is not the text
    of an array index and not [__proto__], becomes the last entry of the
    table; when the prototype of the table was not replaced, its row is added
    at the end of the rendered text and the rows before it do not change. *)
Theorem new_ssid_is_appended (k : string) (ap : AccessPoint) (t : table) :
  has_own k (own t) = false ->
  array_index k = None ->
  k <> "__proto__" ->
  own (table_set k ap t) = (own t ++ [(k, ap)])%list /\
  (proto t = None -> render (table_set k ap t) = render t ++ row_text ap).
Proof.
  intros Hk Hi Hp. apply String.eqb_neq in Hp.
  assert (Ht : table_set k ap t
               = {| own := (own t ++ [(k, ap)])%list; proto := proto t |}).
  { unfold table_set, put. rewrite Hp, Hk. cbn [andb].
    now rewrite create_append. }
  rewrite Ht. cbn [own]. split; [reflexivity|]. intros Hn.
  rewrite !render_rows. unfold for_in, inherited. cbn [own proto].
  rewrite Hn, !app_nil_r, !map_app, join_app. cbn [map join fold_right snd].
  cbn [row_of]. now rewrite append_empty_r.
Qed.

Lemma precedes_asym (k k' : string) :
  precedes k k' = true -> precedes k' k = false.
Proof.
  unfold precedes.
  destruct (array_index k) as [n|], (array_index k') as [n'|];
    try discriminate; try reflexivity.
  rewrite !N.ltb_lt, N.ltb_ge. lia.
Qed.

Lemma precedes_between (x k k' : string) :
  precedes x k' = false -> precedes k k' = true -> precedes x k = false.
Proof.
  unfold precedes.
  destruct (array_index x) as [m|], (array_index k) as [n|],
           (array_index k') as [n'|];
    try discriminate; try reflexivity.
  rewrite N.ltb_ge, N.ltb_lt, N.ltb_ge. lia.
Qed.

Lemma enumeration_order_create {A : Type} (k : string) (v : A)
    (l : list (string * A)) :
  enumeration_order (map fst l) = true ->
  enumeration_order (map fst (create k v l)) = true.
Proof.
  induction l as [|[k0 v0] l IH]; [reflexivity|].
  cbn [map fst enumeration_order create]. intros H.
  apply andb_prop in H. destruct H as [H0 H1].
  destruct (precedes k k0) eqn:E; cbn [map fst enumeration_order].
  - rewrite H0, H1, andb_true_r. cbn [forallb].
    rewrite (precedes_asym _ _ E). cbn [negb andb].
    rewrite forallb_forall in H0 |- *. intros x Hx.
    specialize (H0 x Hx). apply negb_true_iff in H0. apply negb_true_iff.
    eapply precedes_between; eauto.
  - rewrite (IH H1), andb_true_r.
    rewrite forallb_forall in H0 |- *. intros x Hx.
    apply keys_create in Hx. destruct Hx as [->|Hx]; [now rewrite E|auto].
Qed.

Lemma enumeration_order_put {A : Type} (k : string) (v : A)
    (l : list (string * A)) :
  enumeration_order (map fst l) = true ->
  enumeration_order (map fst (put k v l)) = true.
Proof.
  unfold put. destruct (has_own k l) eqn:H.
  - now rewrite (keys_overwrite _ _ _ H).
  - apply enumeration_order_create.
Qed.

Lemma enumeration_order_merge (l : list AccessPoint) (t : table) :
  enumeration_order (map fst (own t)) = true ->
  enumeration_order (map fst (own (merge t (Some l)))) = true.
Proof.
  revert t. induction l as [|ap l IH]; intros t H; [exact H|].
  rewrite merge_cons. apply IH. unfold table_set.
  destruct (String.eqb (ssid ap) "__proto__"
            && negb (has_own (ssid ap) (own t))); cbn [own]; [exact H|].
  now apply enumeration_order_put.
Qed.

Lemma enumeration_order_pair (l1 l2 l3 : list string) (k1 k2 : string) :
  enumeration_order (l1 ++ k1 :: l2 ++ k2 :: l3)%list = true ->
  precedes k2 k1 = false.
Proof.
  induction l1 as [|a l1 IH]; cbn [app enumeration_order]; intros H;
    apply andb_prop in H; destruct H as [H0 H1].
  - rewrite forallb_forall in H0. apply negb_true_iff, H0.
    apply in_or_app. right. now left.
  - now apply IH.
Qed.

(** X7.  Through any run since the load of the script, the entries whose
    SSID is the text of an array index (such as "7" or "42") stand before all
    the other entries, in ascending numeric order, whatever the order in
    which the access points were seen: if a key further down the table is
    such an index, every key above it is one too, with a number not above. *)
Theorem numeric_ssids_come_first
    (html0 : string) (evs : list event) (w : world)
    (l1 l2 l3 : list string) (k1 k2 : string) (n2 : N) :
  run (init html0) evs = Some w ->
  map fst (own (setup_wifi_ssids w)) = (l1 ++ k1 :: l2 ++ k2 :: l3)%list ->
  array_index k2 = Some n2 ->
  exists n1, array_index k1 = Some n1 /\ (n1 <= n2)%N.
Proof.
  intros Hr Hk H2.
  assert (He : enumeration_order (map fst (own (setup_wifi_ssids w))) = true).
  { rewrite (run_table_seen _ _ _ Hr). now apply enumeration_order_merge. }
  rewrite Hk in He. apply enumeration_order_pair in He.
  unfold precedes in He. rewrite H2 in He.
  destruct (array_index k1) as [n1|]; [|discriminate].
  exists n1. split; [reflexivity|]. apply N.ltb_ge in He. exact He.
Qed.

Lemma step_shows (html0 : string) (w w' : world) (e : event) :
  tbody w = html0 \/ tbody w = "<tr><td>Scanning...</td></tr>"
  \/ tbody w = render (setup_wifi_ssids w) ->
  step w e = Some w' ->
  tbody w' = html0 \/ tbody w' = "<tr><td>Scanning...</td></tr>"
  \/ tbody w' = render (setup_wifi_ssids w').
Proof.
  intros H. destruct e as [| |o|id|ms]; simpl.
  - intros [= <-]. rewrite on_activate_eq. simpl. auto.
  - intros [= <-]. rewrite on_deactivate_eq. exact H.
  - destruct (in_flight w) as [|n]; [discriminate|].
    destruct o as [| |data]; intros [= <-]; [exact H | exact H |].
    rewrite scan_done_eq. simpl. auto.
  - destruct (due_time id (timers w)) as [due|]; [|discriminate].
    destruct (due <=? now w)%Z; [|discriminate].
    intros [= <-]. rewrite setup_wifi_scan_eq. exact H.
  - destruct (0 <=? ms)%Z; [|discriminate]. intros [= <-]. exact H.
Qed.

(** X8.  The page never shows the rows of an outdated table: through any run
    since the load of the script, the table body holds what the page had at
    load, or the "Scanning..." placeholder, or the rendering of the table as
    it is now. *)
Theorem page_shows_current_table
    (html0 : string) (evs : list event) (w : world) :
  run (init html0) evs = Some w ->
  tbody w = html0 \/ tbody w = "<tr><td>Scanning...</td></tr>"
  \/ tbody w = render (setup_wifi_ssids w).
Proof.
  assert (G : forall evs w0 w,
    (tbody w0 = html0 \/ tbody w0 = "<tr><td>Scanning...</td></tr>"
     \/ tbody w0 = render (setup_wifi_ssids w0)) ->
    run w0 evs = Some w ->
    tbody w = html0 \/ tbody w = "<tr><td>Scanning...</td></tr>"
    \/ tbody w = render (setup_wifi_ssids w)).
  { clear evs w. induction evs as [|e evs IH]; simpl; intros w0 w H.
    - now intros [= <-].
    - destruct (step w0 e) as [w1|] eqn:E; [|discriminate].
      apply IH. eapply step_shows; eauto. }
  apply G. now left.
Qed.


Lemma step_counts (w w' : world) (e : event) :
  step w e = Some w' ->
  dispatches w'
  = (dispatches w + (if is_activate e || is_fire e then 1 else 0))%nat /\
  (in_flight w' + (if is_response e then 1 else 0)
   = in_flight w + (if is_activate e || is_fire e then 1 else 0))%nat.
Proof.
  unfold dispatches. destruct e as [| |o|id|ms]; simpl.
  - intros [= <-]. rewrite on_activate_eq. cbn [trace in_flight].
    rewrite filter_app, length_app. simpl. lia.
  - intros [= <-]. rewrite on_deactivate_eq. cbn [trace in_flight].
    rewrite filter_app, length_app. simpl. lia.
  - destruct (in_flight w) as [|n]; [discriminate|].
    destruct o as [| |data]; intros [= <-]; [simpl; lia | simpl; lia |].
    rewrite scan_done_eq. cbn [answered trace in_flight].
    rewrite filter_app, length_app. simpl. lia.
  - destruct (due_time id (timers w)) as [due|]; [|discriminate].
    destruct (due <=? now w)%Z; [|discriminate].
    intros [= <-]. rewrite setup_wifi_scan_eq. cbn [expire trace in_flight].
    rewrite filter_app, length_app. simpl. lia.
  - destruct (0 <=? ms)%Z; [|discriminate]. intros [= <-]. simpl. lia.
Qed.

Lemma count_cons (p : event -> bool) (e : event) (evs : list event) :
  count p (e :: evs) = ((if p e then 1 else 0) + count p evs)%nat.
Proof. unfold count. simpl. now destruct (p e). Qed.

(** X9.  Through any run since the load of the script, every scan request was
    sent by one call of [activate()] or by one timer that fired, and the
    requests in flight are the requests sent minus the responses received:
    the script sends nothing on its own and loses count of nothing. *)
Theorem requests_accounted
    (html0 : string) (evs : list event) (w : world) :
  run (init html0) evs = Some w ->
  dispatches w = (count is_activate evs + count is_fire evs)%nat /\
  (in_flight w + count is_response evs = dispatches w)%nat.
Proof.
  assert (G : forall evs w0 w, run w0 evs = Some w ->
    dispatches w
    = (dispatches w0 + count is_activate evs + count is_fire evs)%nat /\
    (in_flight w + count is_response evs
     = in_flight w0 + count is_activate evs + count is_fire evs)%nat).
  { clear evs w. induction evs as [|e evs IH]; simpl; intros w0 w.
    - intros [= <-]. unfold count. simpl. lia.
    - destruct (step w0 e) as [w1|] eqn:E; [|discriminate].
      intros H. destruct (IH _ _ H) as [H1 H2].
      destruct (step_counts _ _ _ E) as [H3 H4].
      rewrite !count_cons.
      destruct e; cbn [is_activate is_fire is_response orb] in *; lia. }
  intros Hr. destruct (G _ _ _ Hr) as [H1 H2].
  change (dispatches (init html0)) with 0%nat in H1.
  change (in_flight (init html0)) with 0%nat in H2. lia.
Qed.

(** X10.  Through any run since the load of the script, the poll chains that
    are alive (requests in flight plus pending timers) are never more than
    the calls of [activate()] so far: a response or a timer continues a
    chain, only [activate()] starts one. *)
Theorem chains_bounded_by_activations
    (html0 : string) (evs : list event) (w : world) :
  run (init html0) evs = Some w ->
  (in_flight w + List.length (timers w) <= count is_activate evs)%nat.
Proof.
  assert (G : forall evs w0 w, run w0 evs = Some w ->
    (in_flight w + List.length (timers w)
     <= in_flight w0 + List.length (timers w0) + count is_activate evs)%nat).
  { clear evs w. induction evs as [|e evs IH]; simpl; intros w0 w.
    - intros [= <-]. lia.
    - destruct (step w0 e) as [w1|] eqn:E; [|discriminate].
      intros H. specialize (IH _ _ H).
      pose proof (step_chains _ _ _ E) as H1. rewrite count_cons. lia. }
  intros Hr. specialize (G _ _ _ Hr). simpl in G. lia.
Qed.

Lemma step_calls (w w' : world) (e : event) :
  forallb script_call (trace w) = true ->
  step w e = Some w' ->
  forallb script_call (trace w') = true.
Proof.
  intros H. destruct e as [| |o|id|ms]; simpl.
  - intros [= <-]. rewrite on_activate_eq. cbn [trace].
    rewrite forallb_app, H. simpl. now rewrite String.eqb_refl.
  - intros [= <-]. rewrite on_deactivate_eq. cbn [trace].
    rewrite forallb_app, H. reflexivity.
  - destruct (in_flight w) as [|n]; [discriminate|].
    destruct o as [| |data]; intros [= <-]; [exact H | exact H |].
    rewrite scan_done_eq. cbn [answered trace].
    rewrite forallb_app, H. reflexivity.
  - destruct (due_time id (timers w)) as [due|]; [|discriminate].
    destruct (due <=? now w)%Z; [|discriminate].
    intros [= <-]. rewrite setup_wifi_scan_eq. cbn [expire trace].
    rewrite forallb_app, H. simpl. now rewrite String.eqb_refl.
  - destruct (0 <=? ms)%Z; [|discriminate]. intros [= <-]. exact H.
Qed.

(** X11.  Through any run since the load of the script, the script does
    nothing to the page and the browser but this: log one of its three
    messages, write into the table body [#setup_wifi_ssids tbody], request
    [api_base + 'wifi/scan'], set a timer of 5000 ms, clear a timer. *)
Theorem only_script_calls (html0 : string) (evs : list event) (w : world) :
  run (init html0) evs = Some w ->
  forallb script_call (trace w) = true.
Proof.
  assert (G : forall evs w0 w, forallb script_call (trace w0) = true ->
    run w0 evs = Some w -> forallb script_call (trace w) = true).
  { clear evs w. induction evs as [|e evs IH]; simpl; intros w0 w H.
    - now intros [= <-].
    - destruct (step w0 e) as [w1|] eqn:E; [|discriminate].
      apply IH. eapply step_calls; eauto. }
  apply G. reflexivity.
Qed.


Lemma nodup_cancel (h : option nat) (l : list (nat * Z)) :
  NoDup (map fst l) -> NoDup (map fst (cancel h l)).
Proof.
  destruct h as [h|]; simpl; [|tauto].
  induction l as [|t l IH]; simpl; intros H; [constructor|].
  inversion H as [|? ? Hn Hl]; subst.
  destruct (negb (fst t =? h)%nat); simpl; [|auto].
  constructor; [|auto]. intros Hin. apply Hn.
  apply in_map_iff in Hin. destruct Hin as (x & Hx & Hf).
  apply filter_In in Hf. apply in_map_iff. exists x. tauto.
Qed.

Lemma cancel_absent (h : nat) (l : list (nat * Z)) :
  ~ In h (map fst l) -> cancel (Some h) l = l.
Proof.
  simpl. induction l as [|t l IH]; simpl; intros H; [reflexivity|].
  destruct (Nat.eqb_spec (fst t) h) as [E|E]; [tauto|]. simpl.
  rewrite IH; tauto.
Qed.

Lemma cancel_at_most_one (h : option nat) (l : list (nat * Z)) :
  NoDup (map fst l) ->
  (List.length l <= S (List.length (cancel h l)))%nat.
Proof.
  destruct h as [h|]; [|simpl; lia].
  induction l as [|t l IH]; intros H; [simpl; lia|].
  inversion H as [|? ? Hn Hl]; subst.
  change (cancel (Some h) (t :: l))
    with (if negb (fst t =? h)%nat then t :: cancel (Some h) l
          else cancel (Some h) l).
  destruct (Nat.eqb_spec (fst t) h) as [E|E]; cbn [negb].
  - subst h. rewrite (cancel_absent _ _ Hn). simpl. lia.
  - specialize (IH Hl). simpl in *. lia.
Qed.

Lemma step_handles (w w' : world) (e : event) :
  fresh w /\ NoDup (map fst (timers w))
  /\ (setup_wifi_scan_timer w = None -> timers w = []) ->
  step w e = Some w' ->
  fresh w' /\ NoDup (map fst (timers w'))
  /\ (setup_wifi_scan_timer w' = None -> timers w' = []).
Proof.
  intros (Hf & Hn & Hh) Hs. split; [eapply step_fresh; eauto|].
  destruct e as [| |o|id|ms]; simpl in Hs.
  - injection Hs as <-. rewrite on_activate_eq. simpl. auto.
  - injection Hs as <-. rewrite on_deactivate_eq. simpl. split.
    + now apply nodup_cancel.
    + intros E. rewrite E, (Hh E). reflexivity.
  - destruct (in_flight w) as [|n]; [discriminate|].
    destruct o as [| |data]; injection Hs as <-; [simpl; auto | simpl; auto |].
    rewrite scan_done_eq. simpl. split; [|discriminate].
    rewrite map_app. simpl. apply NoDup_app; [exact Hn | | ].
    + constructor; [tauto | constructor].
    + intros x Hx [<-|[]]. apply in_map_iff in Hx.
      destruct Hx as (t & Ht & Hin). specialize (Hf t Hin). lia.
  - destruct (due_time id (timers w)) as [due|] eqn:E; [|discriminate].
    destruct (due <=? now w)%Z; [|discriminate].
    injection Hs as <-. rewrite setup_wifi_scan_eq. simpl. split.
    + apply (nodup_cancel (Some id)). exact Hn.
    + intros E0. rewrite (Hh E0) in E. discriminate.
  - destruct (0 <=? ms)%Z; [|discriminate]. injection Hs as <-. simpl. auto.
Qed.

(** X12.  Through any run since the load of the script, no two pending timers
    share a handle, so [deactivate()] clears at most one of them, the one
    named by [setup_wifi_scan_timer]; and while that variable is still
    undefined no timer is pending at all. *)
Theorem deactivate_clears_one_timer
    (html0 : string) (evs : list event) (w : world) :
  run (init html0) evs = Some w ->
  NoDup (map fst (timers w)) /\
  (List.length (timers w)
   <= S (List.length (timers (exec setup_wifi_on_deactivate w))))%nat /\
  (setup_wifi_scan_timer w = None -> timers w = []).
Proof.
  assert (G : forall evs w0 w,
    fresh w0 /\ NoDup (map fst (timers w0))
    /\ (setup_wifi_scan_timer w0 = None -> timers w0 = []) ->
    run w0 evs = Some w ->
    fresh w /\ NoDup (map fst (timers w))
    /\ (setup_wifi_scan_timer w = None -> timers w = [])).
  { clear evs w. induction evs as [|e evs IH]; simpl; intros w0 w H.
    - now intros [= <-].
    - destruct (step w0 e) as [w1|] eqn:E; [|discriminate].
      apply IH. eapply step_handles; eauto. }
  intros Hr. destruct (G evs (init html0) w) as (_ & Hn & Hh); auto.
  { split; [apply init_fresh|]. simpl. split; [constructor | reflexivity]. }
  repeat split; auto.
  rewrite on_deactivate_eq. cbn [timers]. now apply cancel_at_most_one.
Qed.

Lemma cancel_twice (h : option nat) (l : list (nat * Z)) :
  cancel h (cancel h l) = cancel h l.
Proof.
  destruct h as [h|]; simpl; [|reflexivity].
  induction l as [|t l IH]; simpl; [reflexivity|].
  destruct (negb (fst t =? h)%nat) eqn:E; simpl; [|exact IH].
  now rewrite E, IH.
Qed.

(** X15.  A second [deactivate()] right after the first finds nothing left
    to do: apart from the two lines it adds to the log of calls, the page is
    as the first call left it. *)
Theorem deactivate_twice (w : world) :
  exists w1 w2,
    step w Deactivate = Some w1 /\
    step w1 Deactivate = Some w2 /\
    timers w2 = timers w1 /\
    setup_wifi_scan_timer w2 = setup_wifi_scan_timer w1 /\
    setup_wifi_ssids w2 = setup_wifi_ssids w1 /\
    tbody w2 = tbody w1 /\
    in_flight w2 = in_flight w1 /\
    next_timer w2 = next_timer w1 /\
    now w2 = now w1 /\
    trace w2 = (trace w1 ++ [ConsoleLog "setup wifi DEactivate";
                             ClearTimeout (setup_wifi_scan_timer w)])%list.
Proof.
  eexists. eexists. split; [reflexivity|]. split; [reflexivity|].
  rewrite !on_deactivate_eq.
  cbn [setup_wifi_scan_timer setup_wifi_ssids tbody in_flight timers
       next_timer now trace].
  split; [apply cancel_twice|]. repeat split.
Qed.

(** X14.  A response without any record (an empty [access-points] array, or
    none at all) leaves the table as it is, renders it again and sets the
    next timer; when the table is still the empty object of the script, the
    table body becomes empty: the placeholder goes and no row comes. *)
Theorem empty_scan_result (w : world) (n : nat) (data : scan_data) :
  in_flight w = S n ->
  for_in_array (access_points data) = [] ->
  exists w',
    step w (Response (Success data)) = Some w' /\
    setup_wifi_ssids w' = setup_wifi_ssids w /\
    tbody w' = render (setup_wifi_ssids w) /\
    (setup_wifi_ssids w = empty_table -> tbody w' = EmptyString) /\
    timers w' = (timers w ++ [(next_timer w, (now w + 5000)%Z)])%list.
Proof.
  intros Hf He. eexists. cbn [step]. rewrite Hf. split; [reflexivity|].
  rewrite scan_done_eq.
  cbn [answered setup_wifi_ssids tbody timers next_timer now].
  assert (Hm : merge (setup_wifi_ssids w) (access_points data)
               = setup_wifi_ssids w).
  { unfold merge. now rewrite He. }
  rewrite Hm. repeat split. now intros ->.
Qed.



(** *** A response that comes again *)

Lemma in_lookup {A : Type} (k : string) (v : A) (l : list (string * A)) :
  NoDup (map fst l) -> In (k, v) l -> lookup k l = Some v.
Proof.
  induction l as [|[k0 v0] l IH]; simpl; [tauto|].
  intros H. inversion H as [|? ? Hn Hl]; subst.
  intros [[= -> ->]|Hin].
  - now rewrite String.eqb_refl.
  - destruct (String.eqb_spec k k0) as [->|]; [|auto].
    exfalso. apply Hn. apply in_map_iff. now exists (k0, v).
Qed.

(** What a response [l] makes of an entry that is already there. *)
Lemma refresh_cons (ap : AccessPoint) (l : list AccessPoint)
    (e : string * AccessPoint) :
  fst e <> ssid ap ->
  match last_with (fst e) (ap :: l) with Some a => a | None => snd e end
  = match last_with (fst e) l with Some a => a | None => snd e end.
Proof.
  intros H. simpl. destruct (last_with (fst e) l); [reflexivity|].
  apply String.eqb_neq in H. now rewrite H.
Qed.

Lemma map_refresh_absent (ap : AccessPoint) (l : list AccessPoint)
    (L : list (string * AccessPoint)) :
  ~ In (ssid ap) (map fst L) ->
  map (fun e => (fst e, match last_with (fst e) (ap :: l) with
                        | Some a => a | None => snd e end)) L
  = map (fun e => (fst e, match last_with (fst e) l with
                          | Some a => a | None => snd e end)) L.
Proof.
  intros H. apply map_ext_in. intros e He. f_equal. apply refresh_cons.
  intros E. apply H. rewrite <- E. now apply in_map.
Qed.

Lemma map_refresh_overwrite (ap : AccessPoint) (l : list AccessPoint)
    (L : list (string * AccessPoint)) :
  NoDup (map fst L) ->
  has_own (ssid ap) L = true ->
  map (fun e => (fst e, match last_with (fst e) l with
                        | Some a => a | None => snd e end))
      (overwrite (ssid ap) ap L)
  = map (fun e => (fst e, match last_with (fst e) (ap :: l) with
                          | Some a => a | None => snd e end)) L.
Proof.
  unfold has_own.
  induction L as [|[k0 v0] L IH]; cbn [lookup]; [discriminate|].
  intros Hn. inversion Hn as [|? ? Hk HL]; subst.
  cbn [overwrite]. destruct (String.eqb_spec (ssid ap) k0) as [E|E].
  - intros _. cbn [map fst snd]. subst k0.
    rewrite (map_refresh_absent ap l L Hk). f_equal. f_equal.
    cbn [last_with]. destruct (last_with (ssid ap) l); [reflexivity|].
    now rewrite String.eqb_refl.
  - intros H. cbn [map fst snd]. rewrite (IH HL H). f_equal. f_equal.
    symmetry. apply (refresh_cons ap l (k0, v0)). cbn [fst]. congruence.
Qed.

Lemma merge_present (l : list AccessPoint) (t : table) :
  NoDup (map fst (own t)) ->
  (forall ap, In ap l ->
     has_own (ssid ap) (own t) = true \/ ssid ap = "__proto__") ->
  own (merge t (Some l))
  = map (fun e => (fst e, match last_with (fst e) l with
                          | Some a => a | None => snd e end)) (own t) /\
  proto (merge t (Some l))
  = if has_own "__proto__" (own t) then proto t
    else match last_with "__proto__" l with
         | Some a => Some a
         | None => proto t
         end.
Proof.
  revert t. induction l as [|ap l IH]; intros t Hn Hp.
  - split.
    + cbn [merge for_in_array fold_left last_with].
      rewrite <- (map_id (own t)) at 1. apply map_ext. now intros [k v].
    + cbn. now destruct (has_own "__proto__" (own t)).
  - rewrite merge_cons.
    assert (Hl : forall a, In a l ->
      has_own (ssid a) (own (table_set (ssid ap) ap t)) = true
      \/ ssid a = "__proto__").
    { intros a Ha. destruct (Hp a (or_intror Ha)) as [H|H]; [left|now right].
      now apply has_own_table_set. }
    destruct (IH _ (nodup_table_set _ _ _ Hn) Hl) as [H1 H2].
    rewrite H1, H2. clear H1 H2 IH Hl.
    unfold table_set.
    destruct (has_own (ssid ap) (own t)) eqn:Ho.
    + rewrite andb_false_r. cbn [own proto]. unfold put. rewrite Ho.
      split; [now apply map_refresh_overwrite|].
      assert (Hk : has_own "__proto__" (overwrite (ssid ap) ap (own t))
                   = has_own "__proto__" (own t)).
      { destruct (has_own "__proto__" (own t)) eqn:E.
        - rewrite lookup_in_keys, keys_overwrite, <- lookup_in_keys; auto.
        - destruct (has_own "__proto__" (overwrite (ssid ap) ap (own t)))
            eqn:E'; [|reflexivity].
          rewrite lookup_in_keys, keys_overwrite, <- lookup_in_keys in E';
            congruence. }
      rewrite Hk. destruct (has_own "__proto__" (own t)) eqn:E; [reflexivity|].
      cbn [last_with]. destruct (last_with "__proto__" l); [reflexivity|].
      destruct (String.eqb_spec "__proto__" (ssid ap)) as [E'|]; [|reflexivity].
      rewrite <- E' in Ho. congruence.
    + destruct (Hp ap (or_introl eq_refl)) as [H|H]; [congruence|].
      rewrite H in Ho. rewrite H, String.eqb_refl, Ho.
      cbn [negb andb own proto]. rewrite Ho. split.
      * symmetry. apply (map_refresh_absent ap l (own t)).
        rewrite H, <- lookup_in_keys. congruence.
      * cbn [last_with]. rewrite H, String.eqb_refl.
        now destruct (last_with "__proto__" l).
Qed.

Lemma table_eq (t t' : table) :
  own t = own t' -> proto t = proto t' -> t = t'.
Proof. destruct t, t'. simpl. now intros -> ->. Qed.

Lemma merge_twice (l : list AccessPoint) (t : table) :
  NoDup (map fst (own t)) ->
  merge (merge t (Some l)) (Some l) = merge t (Some l).
Proof.
  intros Hn.
  assert (Hn' : NoDup (map fst (own (merge t (Some l)))))
    by now apply nodup_merge.
  assert (Hr : forall k a, last_with k l = Some a ->
                           table_read k (merge t (Some l)) = Some a).
  { intros k a H. now rewrite table_read_merge, H. }
  destruct (merge_present l (merge t (Some l)) Hn') as [H1 H2].
  { intros ap Hap.
    destruct (last_with (ssid ap) l) as [a|] eqn:E.
    - specialize (Hr _ _ E). unfold table_read, has_own in *.
      destruct (lookup (ssid ap) (own (merge t (Some l)))); [now left|].
      destruct (String.eqb_spec (ssid ap) "__proto__"); [now right|discriminate].
    - apply last_with_none in E. exfalso. apply E. now apply in_map. }
  apply table_eq.
  - rewrite H1. rewrite <- (map_id (own (merge t (Some l)))) at 2.
    apply map_ext_in. intros [k v] He. cbn [fst snd].
    destruct (last_with k l) as [a|] eqn:E; [|reflexivity].
    specialize (Hr _ _ E). unfold table_read in Hr.
    rewrite (in_lookup _ _ _ Hn' He) in Hr. congruence.
  - rewrite H2. destruct (has_own "__proto__" (own (merge t (Some l)))) eqn:Ho;
      [reflexivity|].
    destruct (last_with "__proto__" l) as [a|] eqn:E; [|reflexivity].
    specialize (Hr _ _ E). unfold table_read, has_own in *.
    destruct (lookup "__proto__" (own (merge t (Some l)))); [discriminate|].
    rewrite String.eqb_refl in Hr. now rewrite Hr.
Qed.

(** X13.  A response that comes a second time changes nothing: in any state
    the page can reach since the load of the script, running the callback
    for the same [access-points] again leaves the table, and with it the
    rendered rows, as the first time left them. *)
Theorem repeated_response_changes_nothing
    (html0 : string) (evs : list event) (w : world)
    (aps : option (list AccessPoint)) :
  run (init html0) evs = Some w ->
  merge (merge (setup_wifi_ssids w) aps) aps = merge (setup_wifi_ssids w) aps
  /\ render (merge (merge (setup_wifi_ssids w) aps) aps)
     = render (merge (setup_wifi_ssids w) aps).
Proof.
  intros Hr.
  assert (H : merge (merge (setup_wifi_ssids w) aps) aps
              = merge (setup_wifi_ssids w) aps).
  { destruct aps as [l|]; [|reflexivity]. apply merge_twice.
    rewrite (run_table_seen _ _ _ Hr). apply nodup_merge. constructor. }
  split; [exact H | now rewrite H].
Qed.

End SetupWifi.

(** ** The claims on concrete runs

    Numbers are integers here, the API lives under [/api/], and the table body
    of the page is empty when the script loads. *)

Abbreviation ap_A80 := {| ssid := "A"; auth := "WPA2"; quality := 80%Z |}.
Abbreviation ap_B40 := {| ssid := "B"; auth := "Open"; quality := 40%Z |}.
Abbreviation ap_A95 := {| ssid := "A"; auth := "WPA2"; quality := 95%Z |}.
Abbreviation ap_proto := {| ssid := "__proto__"; auth := "Open"; quality := 40%Z |}.
Abbreviation ap_markup := {| ssid := "<b>x</b>"; auth := "a&b"; quality := 7%Z |}.
Abbreviation scan_ok l := (Success {| access_points := Some l |}).
Abbreviation scan_empty_object := (Success {| access_points := @None (list (@AccessPoint Z)) |}).
Abbreviation page := (@init Z EmptyString).
Abbreviation run_page := (run integer_to_string "/api/" page).

(** C1 (the code on the failing input).  A first response with one access
    point whose SSID is [__proto__] adds no entry to the table: the record
    becomes the prototype of the object, and the enumeration then visits the
    three field names of the record instead of the SSID. *)
Theorem proto_ssid_is_not_listed :
  own (merge_all [[ap_proto]]) = [] /\
  proto (merge_all [[ap_proto]]) = Some ap_proto /\
  map fst (for_in (merge_all [[ap_proto]])) = ["ssid"; "auth"; "quality"] /\
  ~ In "__proto__" (map fst (for_in (merge_all [[ap_proto]]))).
Proof.
  repeat split. simpl. intros [H|[H|[H|[]]]]; discriminate.
Qed.

(** C2 (counterexample).  A response that is a JSON object without
    [access-points] does schedule the next poll: after it the timer 1 is
    pending, due 5000 ms later, and when it fires a second scan is sent
    without any new [activate()]. *)
Lemma missing_field_keeps_polling :
  option_map timers (run_page [Activate; Response scan_empty_object])
  = Some [(1%nat, 5000%Z)] /\
  option_map dispatches
    (run_page [Activate; Response scan_empty_object; Advance 5000; Fire 1])
  = Some 2%nat.
Proof. split; reflexivity. Qed.

Lemma failed_scan_ends_chain_witness :
  exists w,
    run_page [Activate] = Some w /\
    in_flight w = 1%nat /\
    step integer_to_string "/api/" w (Response NetworkError)
    = Some (answered 0 w) /\
    forall evs w', no_activate evs = true ->
      run integer_to_string "/api/" (answered 0 w) evs = Some w' ->
      dispatches w' = dispatches w.
Proof.
  eexists. split; [reflexivity|]. split; [reflexivity|].
  destruct (failed_scan_ends_chain integer_to_string "/api/"
              (exec (setup_wifi_on_activate "/api/") page) 0 NetworkError
              eq_refl (or_introl eq_refl)) as (H1 & H2 & _).
  split; [exact H1 | exact (H2 eq_refl eq_refl)].
Defined.


(** C4 (counterexample).  [activate()], then [deactivate()] while the first
    request is still in flight: one scan has been sent.  The response then
    arrives, 5001 ms pass, the timer fires, and a second scan is sent although
    [activate()] was not called again. *)
Lemma late_response_polls_after_deactivate :
  no_activate [Response (scan_ok [ap_A80]); Advance 5001; Fire 1] = true /\
  option_map dispatches (run_page [Activate; Deactivate]) = Some 1%nat /\
  option_map dispatches
    (run_page [Activate; Deactivate;
               Response (scan_ok [ap_A80]); Advance 5001; Fire 1])
  = Some 2%nat.
Proof. repeat split. Qed.

Lemma deactivate_stops_polling_witness :
  exists w w',
    run_page [Activate; Response (scan_ok [ap_A80])] = Some w /\
    in_flight w = 0%nat /\
    timers w = [(1%nat, 5000%Z)] /\
    setup_wifi_scan_timer w = Some 1%nat /\
    run integer_to_string "/api/" w [Deactivate; Advance 6000; Deactivate]
    = Some w' /\
    dispatches w' = dispatches w.
Proof.
  eexists. eexists. split; [vm_compute; reflexivity|].
  split; [reflexivity|]. split; [reflexivity|]. split; [reflexivity|].
  split; [vm_compute; reflexivity|].
  apply (deactivate_stops_polling integer_to_string "/api/" _ _
           [Advance 6000; Deactivate]).
  - reflexivity.
  - intros t [<-|[]]. reflexivity.
  - reflexivity.
  - vm_compute. reflexivity.
Defined.

(** C5 (counterexample).  [activate()], [deactivate()] and [activate()] again
    before the first response: two requests are in flight.  Once both are
    answered the view is active and two timers are pending. *)
Lemma two_pending_timers :
  active_after false
    [Activate; Deactivate; Activate;
     Response (scan_ok [ap_A80]); Response (scan_ok [ap_A80])] = true /\
  option_map (fun w => List.length (timers w))
    (run_page [Activate; Deactivate; Activate;
               Response (scan_ok [ap_A80]); Response (scan_ok [ap_A80])])
  = Some 2%nat.
Proof. split; reflexivity. Qed.

Lemma one_pending_timer_witness :
  activates_when_idle integer_to_string "/api/" page
    [Activate; Response (scan_ok [ap_A80]); Deactivate; Activate;
     Response NetworkError; Activate; Response (scan_ok [ap_B40])] = true /\
  exists w,
    run_page [Activate; Response (scan_ok [ap_A80]); Deactivate; Activate;
              Response NetworkError; Activate; Response (scan_ok [ap_B40])]
    = Some w /\
    (List.length (timers w) <= 1)%nat.
Proof.
  split; [vm_compute; reflexivity|].
  eexists. split; [vm_compute; reflexivity|].
  apply (one_pending_timer integer_to_string "/api/" EmptyString
           [Activate; Response (scan_ok [ap_A80]); Deactivate; Activate;
            Response NetworkError; Activate; Response (scan_ok [ap_B40])]);
    vm_compute; reflexivity.
Defined.

(** C8 (the code on the failing input).  After a response with one access
    point whose SSID is [__proto__] the table has no entry, and yet the
    rendering loop visits three properties and the page shows three rows, each
    with the placeholders of the templates left in. *)
Theorem proto_ssid_renders_blank_rows :
  option_map (fun w => own (setup_wifi_ssids w))
    (run_page [Activate; Response (scan_ok [ap_proto])]) = Some [] /\
  option_map (fun w => List.length (for_in (setup_wifi_ssids w)))
    (run_page [Activate; Response (scan_ok [ap_proto])]) = Some 3%nat /\
  option_map tbody (run_page [Activate; Response (scan_ok [ap_proto])])
  = Some (blank_row ++ blank_row ++ blank_row).
Proof. repeat split. Qed.

Lemma deactivate_keeps_table_witness :
  exists w w1 w2,
    run_page [Activate; Response (scan_ok [ap_A80]); Advance 5000; Fire 1;
              Response NetworkError] = Some w /\
    setup_wifi_scan_timer w = Some 1%nat /\
    timers w = [] /\
    step integer_to_string "/api/" w Deactivate = Some w1 /\
    step integer_to_string "/api/" w1 Activate = Some w2 /\
    timers w1 = timers w /\
    setup_wifi_ssids w2 = setup_wifi_ssids w /\
    own (setup_wifi_ssids w2) = [("A", ap_A80)] /\
    dispatches w2 = S (dispatches w).
Proof.
  eexists.
  refine (let H := deactivate_keeps_table integer_to_string "/api/" _ in _).
  destruct H as (w1 & w2 & H1 & H2 & _ & _ & _ & _ & _ & _ & H9 & H10 & _ & H12).
  exists w1, w2. split; [vm_compute; reflexivity|].
  split; [reflexivity|]. split; [reflexivity|].
  split; [exact H1|]. split; [exact H2|].
  split; [apply H9; intros h [= <-]; reflexivity|].
  split; [exact H10|]. split; [rewrite H10; reflexivity | exact H12].
Defined.

Lemma last_duplicate_wins_witness :
  exists w,
    run_page [Activate] = Some w /\
    in_flight w = 1%nat /\
    last_with "A" [ap_A80; ap_B40; ap_A95] = Some ap_A95 /\
    exists w',
      step integer_to_string "/api/" w
           (Response (scan_ok [ap_A80; ap_B40; ap_A95])) = Some w' /\
      table_read "A" (setup_wifi_ssids w') = Some ap_A95.
Proof.
  eexists. split; [reflexivity|]. split; [reflexivity|].
  split; [reflexivity|].
  apply (last_duplicate_wins integer_to_string "/api/" _ 0
           [ap_A80; ap_B40; ap_A95] "A" ap_A95); reflexivity.
Defined.

Lemma rows_embed_values_verbatim_witness :
  In ("<b>x</b>", ap_markup) (own (merge_all [[ap_A80; ap_markup]])) /\
  exists before after,
    render integer_to_string (merge_all [[ap_A80; ap_markup]])
    = before
      ++ "<tr><th scope=" ++ dq ++ "row" ++ dq ++ "><b>x</b>"
      ++ "</th><td>a&b"
      ++ "</td><td>7</td>"
      ++ "<td class=" ++ dq ++ "text-center" ++ dq ++ ">"
      ++ "<button class=" ++ dq ++ "btn btn-sm btn-outline-success" ++ dq
      ++ " ssid=" ++ dq ++ "<b>x</b>" ++ dq ++ ">Connect</button></td></tr>"
      ++ nl ++ after.
Proof.
  split; [right; left; reflexivity|].
  apply (rows_embed_values_verbatim integer_to_string
           (merge_all [[ap_A80; ap_markup]]) "<b>x</b>" ap_markup).
  right; left; reflexivity.
Defined.

(** ** The further properties on concrete runs *)

Abbreviation ap_9 := {| ssid := "9"; auth := "Open"; quality := 30%Z |}.
Abbreviation ap_10 := {| ssid := "10"; auth := "WPA2"; quality := 60%Z |}.
Abbreviation three_scans :=
  [Activate; Response (scan_ok [ap_A80]); Advance 5000; Fire 1;
   Response (scan_ok [ap_B40]); Advance 5000; Fire 2;
   Response (scan_ok [ap_A95])].

Lemma entries_never_removed_witness :
  exists w w',
    run_page [Activate; Response (scan_ok [ap_A80])] = Some w /\
    run integer_to_string "/api/" w
        [Deactivate; Activate; Response NetworkError; Activate;
         Response (scan_ok [ap_B40])] = Some w' /\
    has_own "A" (own (setup_wifi_ssids w)) = true /\
    has_own "A" (own (setup_wifi_ssids w')) = true.
Proof.
  eexists. eexists. split; [vm_compute; reflexivity|].
  split; [vm_compute; reflexivity|].
  match goal with
  | |- has_own _ (own (setup_wifi_ssids ?w)) = true
       /\ has_own _ (own (setup_wifi_ssids ?w')) = true =>
      split; [reflexivity|];
      apply (entries_never_removed integer_to_string "/api/"
               [Deactivate; Activate; Response NetworkError; Activate;
                Response (scan_ok [ap_B40])] w w' "A");
      vm_compute; reflexivity
  end.
Defined.


Lemma known_aps_over_runs_witness :
  exists w,
    run_page three_scans = Some w /\
    (forall ap, In ap (seen three_scans) -> ssid ap <> "__proto__") /\
    proto (setup_wifi_ssids w) = None /\
    map fst (for_in (setup_wifi_ssids w)) = ["A"; "B"].
Proof.
  eexists. split; [vm_compute; reflexivity|].
  assert (H : forall ap : @AccessPoint Z,
            In ap (seen three_scans) -> ssid ap <> "__proto__").
  { intros ap [<-|[<-|[<-|[]]]]; discriminate. }
  split; [exact H|].
  match goal with
  | |- proto (setup_wifi_ssids ?w) = None /\ _ =>
      destruct (known_aps_over_runs integer_to_string "/api/" EmptyString
                  three_scans w) as (H1 & _ & _ & H4);
        [vm_compute; reflexivity | exact H |]
  end.
  split; [exact H1 | reflexivity].
Defined.

Lemma render_own_witness :
  proto (merge_all [[ap_A80; ap_B40]]) = None /\
  render integer_to_string (merge_all [[ap_A80; ap_B40]])
  = row_text integer_to_string ap_A80 ++ row_text integer_to_string ap_B40.
Proof.
  split; [reflexivity|].
  rewrite (render_own integer_to_string (merge_all [[ap_A80; ap_B40]]) eq_refl).
  reflexivity.
Defined.

Lemma seen_again_keeps_position_witness :
  own (merge_all [[ap_A80; ap_B40]]) = ([] ++ ("A", ap_A80) :: [("B", ap_B40)])%list /\
  has_own "A" (@nil (string * @AccessPoint Z)) = false /\
  own (table_set "A" ap_A95 (merge_all [[ap_A80; ap_B40]]))
  = [("A", ap_A95); ("B", ap_B40)].
Proof.
  split; [reflexivity|]. split; [reflexivity|].
  apply (seen_again_keeps_position "A" ap_A95 ap_A80
           (merge_all [[ap_A80; ap_B40]]) [] [("B", ap_B40)]); reflexivity.
Defined.

Lemma new_ssid_is_appended_witness :
  has_own "B" (own (merge_all [[ap_A80]])) = false /\
  array_index "B" = None /\
  "B" <> "__proto__" /\
  own (table_set "B" ap_B40 (merge_all [[ap_A80]]))
  = [("A", ap_A80); ("B", ap_B40)] /\
  render integer_to_string (table_set "B" ap_B40 (merge_all [[ap_A80]]))
  = render integer_to_string (merge_all [[ap_A80]])
    ++ row_text integer_to_string ap_B40.
Proof.
  assert (Hp : "B" <> "__proto__") by discriminate.
  split; [reflexivity|]. split; [reflexivity|]. split; [exact Hp|].
  destruct (new_ssid_is_appended integer_to_string "B" ap_B40
              (merge_all [[ap_A80]]) eq_refl eq_refl Hp) as [H1 H2].
  split; [exact H1 | exact (H2 eq_refl)].
Defined.

Lemma numeric_ssids_come_first_witness :
  exists w,
    run_page [Activate; Response (scan_ok [ap_B40; ap_10; ap_9])] = Some w /\
    map fst (own (setup_wifi_ssids w)) = ([] ++ "9" :: [] ++ "10" :: ["B"])%list /\
    array_index "10" = Some 10%N /\
    exists n1, array_index "9" = Some n1 /\ (n1 <= 10)%N.
Proof.
  eexists. split; [vm_compute; reflexivity|].
  match goal with
  | |- map fst (own (setup_wifi_ssids ?w)) = _ /\ _ =>
      split; [reflexivity|]; split; [reflexivity|];
      apply (numeric_ssids_come_first integer_to_string "/api/" EmptyString
               [Activate; Response (scan_ok [ap_B40; ap_10; ap_9])] w
               [] [] ["B"] "9" "10" 10%N); vm_compute; reflexivity
  end.
Defined.

Lemma page_shows_current_table_witness :
  exists w,
    run_page three_scans = Some w /\
    (tbody w = EmptyString \/ tbody w = "<tr><td>Scanning...</td></tr>"
     \/ tbody w = render integer_to_string (setup_wifi_ssids w)).
Proof.
  eexists. split; [vm_compute; reflexivity|].
  apply (page_shows_current_table integer_to_string "/api/" EmptyString
           three_scans); vm_compute; reflexivity.
Defined.

Lemma requests_accounted_witness :
  exists w,
    run_page three_scans = Some w /\
    dispatches w = (count is_activate three_scans
                    + count is_fire three_scans)%nat /\
    (in_flight w + count is_response three_scans = dispatches w)%nat.
Proof.
  eexists. split; [vm_compute; reflexivity|].
  apply (requests_accounted integer_to_string "/api/" EmptyString
           three_scans); vm_compute; reflexivity.
Defined.

Lemma chains_bounded_by_activations_witness :
  exists w,
    run_page [Activate; Deactivate; Activate;
              Response (scan_ok [ap_A80]); Response (scan_ok [ap_A80])]
    = Some w /\
    (in_flight w + List.length (timers w) <= 2)%nat.
Proof.
  eexists. split; [vm_compute; reflexivity|].
  apply (chains_bounded_by_activations integer_to_string "/api/" EmptyString
           [Activate; Deactivate; Activate;
            Response (scan_ok [ap_A80]); Response (scan_ok [ap_A80])]);
    vm_compute; reflexivity.
Defined.

Lemma only_script_calls_witness :
  exists w,
    run_page three_scans = Some w /\
    forallb (script_call "/api/") (trace w) = true.
Proof.
  eexists. split; [vm_compute; reflexivity|].
  apply (only_script_calls integer_to_string "/api/" EmptyString three_scans);
    vm_compute; reflexivity.
Defined.

Lemma deactivate_clears_one_timer_witness :
  exists w,
    run_page [Activate; Deactivate; Activate;
              Response (scan_ok [ap_A80]); Response (scan_ok [ap_A80])]
    = Some w /\
    NoDup (map fst (timers w)) /\
    (List.length (timers w)
     <= S (List.length (timers (exec setup_wifi_on_deactivate w))))%nat.
Proof.
  eexists. split; [vm_compute; reflexivity|].
  match goal with
  | |- NoDup (map fst (timers ?w)) /\ _ =>
      destruct (deactivate_clears_one_timer integer_to_string "/api/"
                  EmptyString
                  [Activate; Deactivate; Activate;
                   Response (scan_ok [ap_A80]); Response (scan_ok [ap_A80])]
                  w) as (H1 & H2 & _); [vm_compute; reflexivity|]
  end.
  split; [exact H1 | exact H2].
Defined.

Lemma repeated_response_changes_nothing_witness :
  exists w,
    run_page [Activate; Response (scan_ok [ap_A80; ap_proto; ap_A95])]
    = Some w /\
    merge (merge (setup_wifi_ssids w) (Some [ap_A80; ap_proto; ap_A95]))
          (Some [ap_A80; ap_proto; ap_A95])
    = merge (setup_wifi_ssids w) (Some [ap_A80; ap_proto; ap_A95]).
Proof.
  eexists. split; [vm_compute; reflexivity|].
  apply (repeated_response_changes_nothing integer_to_string "/api/"
           EmptyString
           [Activate; Response (scan_ok [ap_A80; ap_proto; ap_A95])]);
    vm_compute; reflexivity.
Defined.

Lemma empty_scan_result_witness :
  exists w w',
    run_page [Activate] = Some w /\
    in_flight w = 1%nat /\
    step integer_to_string "/api/" w (Response (scan_ok [])) = Some w' /\
    setup_wifi_ssids w' = empty_table /\
    tbody w' = EmptyString.
Proof.
  destruct (empty_scan_result integer_to_string "/api/"
              (exec (setup_wifi_on_activate "/api/") page) 0
              {| access_points := Some [] |} eq_refl eq_refl)
    as (w' & H1 & H2 & _ & H4 & _).
  exists (exec (setup_wifi_on_activate "/api/") page), w'.
  split; [reflexivity|]. split; [reflexivity|].
  split; [exact H1|]. split; [exact H2 | exact (H4 eq_refl)].
Defined.
